(** * Daytrade dashboard: the computational core of [src/App.jsx]

    The component keeps a journal of daily balances, derives an equity
    series and month statistics from it, raises two daily flags, sizes a
    position from entry, stop and risk, and exports the journal as CSV.

    JavaScript numbers are IEEE 754 binary64.  The program is embedded once,
    over an interface [JsNumber] of the arithmetic it uses, and read at two
    instances: [float] (binary64, what the browser computes) and [exact]
    (rationals extended with NaN, the arithmetic on paper).

    A [null] or [undefined] result is [None].  Strings are [string]; dates
    and notes are made of the characters that both encodings share.  What
    the platform does to strings and numbers beyond the arithmetic
    ([Number] on a string, [toString] on a number, [trim]) is a parameter of
    the definitions that call it, and the clock of [monthStats] is the
    argument [ym]. *)

From Stdlib Require Import PrimFloat FloatOps FloatAxioms SpecFloat.
From Stdlib Require Import QArith Qcanon Ascii Sorted.
From Stdlib Require OrderedTypeEx.
From stdpp Require Import base list strings pretty sorting.

Set Warnings "-inexact-float".

(** ** Numbers *)

(** The operations of JavaScript's Number type that the component uses. *)
Class JsNumber (num : Type) := {
  n0 : num;                         (* the literal 0 *)
  n1 : num;                         (* the literal 1 *)
  n100 : num;                       (* the literal 100 *)
  NaN : num;
  num_add : num -> num -> num;      (* a + b *)
  num_sub : num -> num -> num;      (* a - b *)
  num_mul : num -> num -> num;      (* a * b *)
  num_div : num -> num -> num;      (* a / b *)
  Math_abs : num -> num;
  Math_max : num -> num -> num;
  num_lt : num -> num -> bool;      (* a < b; a > b is b < a *)
  num_le : num -> num -> bool;      (* a <= b; a >= b is b <= a *)
  truthy : num -> bool;             (* ToBoolean: false at 0, -0 and NaN *)
}.

Declare Scope js_scope.
Delimit Scope js_scope with js.
Infix "+" := num_add : js_scope.
Infix "-" := num_sub : js_scope.
Infix "*" := num_mul : js_scope.
Infix "/" := num_div : js_scope.
Infix "<" := num_lt : js_scope.
Infix "<=" := num_le : js_scope.
Notation "a > b" := (num_lt b a) : js_scope.
Notation "a >= b" := (num_le b a) : js_scope.

(** *** binary64 *)

(** [Math.max(a, b)]: NaN when either is NaN, and +0 above -0. *)
Definition float_max (a b : float) : float :=
  if (PrimFloat.is_nan a || PrimFloat.is_nan b)%bool then PrimFloat.nan
  else if PrimFloat.ltb a b then b
  else if PrimFloat.ltb b a then a
  else if PrimFloat.get_sign a then b else a.

Definition float_truthy (x : float) : bool :=
  negb (PrimFloat.is_zero x || PrimFloat.is_nan x).

#[export] Instance float_number : JsNumber float := {
  n0 := 0%float;
  n1 := 1%float;
  n100 := 100%float;
  NaN := PrimFloat.nan;
  num_add := PrimFloat.add;
  num_sub := PrimFloat.sub;
  num_mul := PrimFloat.mul;
  num_div := PrimFloat.div;
  Math_abs := PrimFloat.abs;
  Math_max := float_max;
  num_lt := PrimFloat.ltb;
  num_le := PrimFloat.leb;
  truthy := float_truthy;
}.

(** *** Exact arithmetic

    Rationals with one more value for NaN.  There is no rounding and there
    are no infinities: a division by zero, which JavaScript answers with an
    infinity or NaN, gives NaN here.  The component divides by 100, by a
    leverage of at least 1, and otherwise behind a guard that keeps the
    divisor away from zero. *)

Definition exact : Type := option Qc.

Definition exact_lift2 (f : Qc -> Qc -> Qc) (a b : exact) : exact :=
  match a, b with
  | Some x, Some y => Some (f x y)
  | _, _ => None
  end.

Definition exact_div (a b : exact) : exact :=
  match a, b with
  | Some x, Some y => if decide (y = 0%Qc) then None else Some (x / y)%Qc
  | _, _ => None
  end.

Definition exact_abs (a : exact) : exact :=
  match a with
  | Some x => Some (if decide (x < 0)%Qc then (- x)%Qc else x)
  | None => None
  end.

Definition exact_max (a b : exact) : exact :=
  exact_lift2 (fun x y => if decide (x < y)%Qc then y else x) a b.

Definition exact_lt (a b : exact) : bool :=
  match a, b with
  | Some x, Some y => bool_decide (x < y)%Qc
  | _, _ => false
  end.

Definition exact_le (a b : exact) : bool :=
  match a, b with
  | Some x, Some y => bool_decide (x <= y)%Qc
  | _, _ => false
  end.

Definition exact_truthy (a : exact) : bool :=
  match a with
  | Some x => bool_decide (x <> 0%Qc)
  | None => false
  end.

Definition exact_of_Z (z : Z) : exact := Some (Q2Qc (inject_Z z)).

#[export] Instance exact_number : JsNumber exact := {
  n0 := exact_of_Z 0;
  n1 := exact_of_Z 1;
  n100 := exact_of_Z 100;
  NaN := None;
  num_add := exact_lift2 Qcplus;
  num_sub := exact_lift2 Qcminus;
  num_mul := exact_lift2 Qcmult;
  num_div := exact_div;
  Math_abs := exact_abs;
  Math_max := exact_max;
  num_lt := exact_lt;
  num_le := exact_le;
  truthy := exact_truthy;
}.

(** ** Values and coercions

    The values that reach the component: form fields are strings, the
    default settings and the stored balances are numbers, a setting missing
    from the stored object is [undefined], and JSON also holds [null] and
    booleans. *)

Inductive value (num : Type) : Type :=
  | VUndefined
  | VNull
  | VBool (b : bool)
  | VNumber (x : num)
  | VString (s : string).

Arguments VUndefined {num}.
Arguments VNull {num}.
Arguments VBool {num} b.
Arguments VNumber {num} x.
Arguments VString {num} s.

Section Coercions.
Context {num : Type} `{JsNumber num}.

(** The platform's reading of a string as a number (the empty string is
    0, a malformed one NaN); the component only passes it along. *)
Variable StringToNumber : string -> num.

(** [Number(v)] *)
Definition Number (v : value num) : num :=
  match v with
  | VUndefined => NaN
  | VNull => n0
  | VBool b => if b then n1 else n0
  | VNumber x => x
  | VString s => StringToNumber s
  end.

(** The truth value of [v] in [!v], [v || d] and [v ? a : b]. *)
Definition ToBoolean (v : value num) : bool :=
  match v with
  | VUndefined | VNull => false
  | VBool b => b
  | VNumber x => truthy x
  | VString s => negb (String.eqb s "")
  end.

(** [a || b] *)
Definition or_else (a b : value num) : value num :=
  if ToBoolean a then a else b.

End Coercions.

(** ** Position sizing *)

Record PositionInput (num : Type) : Type := {
  entry : value num;
  stop : value num;
  balance : value num;
  riskPercent : value num;
  feePercent : value num;
  leverage : value num;
}.

Arguments entry {num} _.
Arguments stop {num} _.
Arguments balance {num} _.
Arguments riskPercent {num} _.
Arguments feePercent {num} _.
Arguments leverage {num} _.

Record PositionPlan (num : Type) : Type := {
  plan_entry : num;
  plan_stop : num;
  stopDist : num;
  riskValue : num;
  positionUSDT : num;
  units : num;
  notional : num;
  marginRequired : num;
  estFees : num;
}.

Arguments plan_entry {num} _.
Arguments plan_stop {num} _.
Arguments stopDist {num} _.
Arguments riskValue {num} _.
Arguments positionUSDT {num} _.
Arguments units {num} _.
Arguments notional {num} _.
Arguments marginRequired {num} _.
Arguments estFees {num} _.

Section PositionSizer.
Context {num : Type} `{JsNumber num}.
Variable StringToNumber : string -> num.
Local Open Scope js_scope.

Let Number := Number StringToNumber.

(** [calcPosition], lines 20-37; [None] is the [null] result. *)
Definition calcPosition (i : PositionInput num) : option (PositionPlan num) :=
  let e := Number (entry i) in
  let s := Number (stop i) in
  let bal := Number (balance i) in
  let rPct := Number (riskPercent i) / n100 in
  let fPct := Number (feePercent i) / n100 in
  let lev := Math_max n1 (Number (or_else (leverage i) (VNumber n1))) in
  if (negb (truthy e) || negb (truthy s) || negb (truthy bal) || negb (truthy rPct))%bool
  then None
  else
    let stopDist := Math_abs (e - s) in
    if stopDist <= n0 then None
    else
      let riskValue := bal * rPct in
      let positionUSDT := riskValue / (stopDist / e) in
      let units := positionUSDT / e in
      let notional := positionUSDT in
      let marginRequired := notional / lev in
      let estFees := notional * fPct in
      Some {| plan_entry := e; plan_stop := s; stopDist := stopDist;
              riskValue := riskValue; positionUSDT := positionUSDT;
              units := units; notional := notional;
              marginRequired := marginRequired; estFees := estFees |}.

End PositionSizer.

(** ** Arrays and strings of the platform *)

Section Arrays.
Context {A : Type}.

(** [Array.prototype.sort(cmp)]: the sort is stable; an element moves
    behind another only when the comparator is positive on them. *)
Fixpoint sort_insert (cmp : A -> A -> comparison) (x : A) (l : list A) : list A :=
  match l with
  | [] => [x]
  | y :: l' =>
      match cmp x y with
      | Gt => y :: sort_insert cmp x l'
      | _ => x :: l
      end
  end.

Fixpoint Array_sort (cmp : A -> A -> comparison) (l : list A) : list A :=
  match l with
  | [] => []
  | x :: l' => sort_insert cmp x (Array_sort cmp l')
  end.

(** [findIndex]: [None] is the result -1. *)
Fixpoint findIndex (P : A -> bool) (l : list A) : option nat :=
  match l with
  | [] => None
  | x :: l' => if P x then Some 0 else S <$> findIndex P l'
  end.

(** [find]: [None] is [undefined]. *)
Definition Array_find (P : A -> bool) (l : list A) : option A := List.find P l.

Definition Array_filter (P : A -> bool) (l : list A) : list A := List.filter P l.

(** [reduce(f, init)] *)
Definition Array_reduce {B : Type} (f : B -> A -> B) (init : B) (l : list A) : B :=
  fold_left f l init.

End Arrays.

(** [a.localeCompare(b)] on the journal's dates.  The dates have the fixed
    form YYYY-MM-DD, on which the collation order is the order of the code
    units, compared position by position. *)
Definition localeCompare (a b : string) : comparison := String.compare a b.

(** [s.startsWith(p)] *)
Definition startsWith (s p : string) : bool := String.prefix p s.

(** [s.replace(/,/g, ";")] *)
Fixpoint replace_commas (s : string) : string :=
  match s with
  | EmptyString => EmptyString
  | String c s' =>
      String (if Ascii.eqb c ","%char then ";"%char else c) (replace_commas s')
  end.

(** [xs.join(sep)] on an array of strings *)
Definition join (sep : string) (xs : list string) : string := String.concat sep xs.

Definition newline : string := String (Ascii.ascii_of_nat 10) EmptyString.

(** ** The journal and what is derived from it *)

Record JournalEntry (num : Type) : Type := {
  date : string;
  startBalance : value num;
  endBalance : value num;
  notes : string;
}.

Arguments date {num} _.
Arguments startBalance {num} _.
Arguments endBalance {num} _.
Arguments notes {num} _.

Record EquityRow (num : Type) : Type := {
  index : nat;
  row_date : string;
  start : num;
  end_ : num;
  pl : num;
  retPct : num;
}.

Arguments index {num} _.
Arguments row_date {num} _.
Arguments start {num} _.
Arguments end_ {num} _.
Arguments pl {num} _.
Arguments retPct {num} _.

Record MonthStats (num : Type) : Type := {
  month_pl : num;
  month_retPct : num;
}.

Arguments month_pl {num} _.
Arguments month_retPct {num} _.

(** The state of the daily form. *)
Record Form (num : Type) : Type := {
  form_date : string;
  form_startBalance : value num;
  form_endBalance : value num;
  form_notes : string;
}.

Arguments form_date {num} _.
Arguments form_startBalance {num} _.
Arguments form_endBalance {num} _.
Arguments form_notes {num} _.

Section Dashboard.
Context {num : Type} `{JsNumber num}.
Variable StringToNumber : string -> num.
(** [Number.prototype.toString], used by [join] on a number. *)
Variable NumberToString : num -> string.
(** [String.prototype.trim] *)
Variable trim : string -> string.
Local Open Scope js_scope.

Let Number := Number StringToNumber.

(** [equity], lines 55-64 *)
Definition equity_row (i : nat) (e : JournalEntry num) : EquityRow num :=
  let start := Number (or_else (startBalance e) (VNumber n0)) in
  let end_ := Number (or_else (endBalance e) (VNumber n0)) in
  let pl := end_ - start in
  let retPct := if start > n0 then (pl / start) * n100 else n0 in
  {| index := i + 1; row_date := date e; start := start; end_ := end_;
     pl := pl; retPct := retPct |}.

Definition equity (entries : list (JournalEntry num)) : list (EquityRow num) :=
  let sorted := Array_sort (fun a b => localeCompare (date a) (date b)) entries in
  imap equity_row sorted.

(** [monthStats], lines 66-74; [ym] is the year and month of the clock,
    as [YYYY-MM]. *)
Definition monthStats (ym : string) (equity : list (EquityRow num)) : MonthStats num :=
  let monthRows := Array_filter (fun r => startsWith (row_date r) ym) equity in
  let pl := Array_reduce (fun s r => s + pl r) n0 monthRows in
  let start := match monthRows with r :: _ => start r | [] => n0 end in
  let retPct := if start > n0 then (pl / start) * n100 else n0 in
  {| month_pl := pl; month_retPct := retPct |}.

(** [dailyRow], line 75 *)
Definition dailyRow (equity : list (EquityRow num)) (form : Form num) : option (EquityRow num) :=
  Array_find (fun r => String.eqb (row_date r) (form_date form)) equity.

(** [dailyLossExceeded], lines 77-81 *)
Definition dailyLossExceeded (dailyRow : option (EquityRow num))
    (maxDailyLossPercent : value num) : bool :=
  match dailyRow with
  | None => false
  | Some r =>
      if start r <= n0 then false
      else
        let lossPct := if pl r < n0 then (Math_abs (pl r) / start r) * n100 else n0 in
        lossPct >= Number (or_else maxDailyLossPercent (VNumber n0))
  end.

(** [dailyTargetHit], lines 83-87 *)
Definition dailyTargetHit (dailyRow : option (EquityRow num))
    (dailyTargetPercent : value num) : bool :=
  match dailyRow with
  | None => false
  | Some r =>
      if start r <= n0 then false
      else
        let ret := (pl r / start r) * n100 in
        ret >= Number (or_else dailyTargetPercent (VNumber n0))
  end.

(** [addOrUpdateEntry], lines 90-99: the new value of [entries]. *)
Definition payload (form : Form num) : JournalEntry num :=
  {| date := form_date form;
     startBalance := VNumber (Number (or_else (form_startBalance form) (VNumber n0)));
     endBalance := VNumber (Number (or_else (form_endBalance form) (VNumber n0)));
     notes := trim (form_notes form) |}.

Definition addOrUpdateEntry (entries : list (JournalEntry num)) (form : Form num)
    : list (JournalEntry num) :=
  let idx := findIndex (fun x => String.eqb (date x) (form_date form)) entries in
  match idx with
  | Some i => <[i := payload form]> entries
  | None => entries ++ [payload form]
  end.

(** [removeEntry], line 100 *)
Definition removeEntry (d : string) (entries : list (JournalEntry num))
    : list (JournalEntry num) :=
  Array_filter (fun x => negb (String.eqb (date x) d)) entries.

(** The text built by the export button, lines 202-205. *)
Definition csv_header : string :=
  join "," ["date"; "startBalance"; "endBalance"; "pl"; "retPct"; "notes"].

Definition csv_notes (entries : list (JournalEntry num)) (r : EquityRow num) : string :=
  replace_commas
    match Array_find (fun e => String.eqb (date e) (row_date r)) entries with
    | Some e => notes e
    | None => ""
    end.

Definition csv_row (entries : list (JournalEntry num)) (r : EquityRow num) : string :=
  join "," [row_date r; NumberToString (start r); NumberToString (end_ r);
            NumberToString (pl r); NumberToString (retPct r); csv_notes entries r].

Definition csv (entries : list (JournalEntry num)) : string :=
  join newline (csv_header :: map (csv_row entries) (equity entries)).

End Dashboard.


(** ** Laws of the arithmetic

    The few facts about comparisons that the properties below rest on; they
    hold in binary64 and in exact arithmetic. *)
Class JsNumberLaws (num : Type) `{JsNumber num} : Prop := {
  (* 0 > 0 is false *)
  zero_not_positive : num_lt n0 n0 = false;
  (* a < b excludes b <= a *)
  lt_excludes_ge : forall a b : num, num_lt a b = true -> num_le b a = false;
  (* a number that is falsy and not NaN is a zero, and compares as 0 does *)
  falsy_compares_as_zero : forall x a : num,
    truthy x = false -> x <> NaN -> num_le x a = num_le n0 a;
  (* Math.max(1, x) is NaN or at least 1 *)
  max_one_clamps : forall x : num,
    Math_max n1 x = NaN \/ num_le n1 (Math_max n1 x) = true;
}.

(** ** Reading the exported text *)

(** [s.split(sep)] for a separator of one character. *)
Fixpoint split_on (sep : ascii) (s : string) : list string :=
  match s with
  | EmptyString => [EmptyString]
  | String c s' =>
      if Ascii.eqb c sep then EmptyString :: split_on sep s'
      else match split_on sep s' with
           | h :: t => String c h :: t
           | [] => [String c EmptyString]
           end
  end.

(** [s.includes(c)] for one character. *)
Fixpoint includes (c : ascii) (s : string) : bool :=
  match s with
  | EmptyString => false
  | String c' s' => (Ascii.eqb c' c || includes c s')%bool
  end.

Definition comma : ascii := ","%char.
Definition line_feed : ascii := Ascii.ascii_of_nat 10.

(** A field that holds neither a comma nor a line feed. *)
Definition plain_field (s : string) : bool :=
  (negb (includes comma s) && negb (includes line_feed s))%bool.

(** A text without a line feed. *)
Definition single_line (s : string) : bool := negb (includes line_feed s).

Definition csv_lines (text : string) : list string := split_on line_feed text.
Definition csv_fields (line : string) : list string := split_on comma line.

(** The date of a row and its four numbers, as printed, are plain fields. *)
Definition row_prints_plain {num : Type} (NumberToString : num -> string)
    (r : EquityRow num) : bool :=
  (plain_field (row_date r) && plain_field (NumberToString (start r))
   && plain_field (NumberToString (end_ r)) && plain_field (NumberToString (pl r))
   && plain_field (NumberToString (retPct r)))%bool.

(** ** Orders and sums used in the statements *)

(** [a] does not come after [b] in the order of the sort. *)
Definition date_le (a b : string) : Prop := localeCompare a b <> Gt.

Definition sorted_by_date {num : Type} (rows : list (EquityRow num)) : Prop :=
  StronglySorted (fun a b => date_le (row_date a) (row_date b)) rows.

(** The entries in the order in which [equity] reads them. *)
Definition sorted_entries {num : Type} (es : list (JournalEntry num))
    : list (JournalEntry num) :=
  Array_sort (fun a b => localeCompare (date a) (date b)) es.

(** The sum of [pl] over rows, accumulated from 0 in the order of the rows. *)
Definition sum_pl {num : Type} `{JsNumber num} (rows : list (EquityRow num)) : num :=
  fold_left (fun s r => num_add s (pl r)) rows n0.

(** The rows of a series whose date falls in the year-month [ym]. *)
Definition rows_of_month {num : Type} (ym : string) (rows : list (EquityRow num))
    : list (EquityRow num) :=
  List.filter (fun r => startsWith (row_date r) ym) rows.

(** ** Data of the examples *)

(** No string occurs in the examples: their inputs are numbers. *)
Definition no_strings {num : Type} `{JsNumber num} : string -> num := fun _ => NaN.

Definition fnum (x : float) : value float := VNumber x.

Arguments fnum x%_float.

(** The exact number [a/b]. *)
Definition ratio (a : Z) (b : positive) : exact := Some (Q2Qc (a # b)).
Definition qnum (a : Z) (b : positive) : value exact := VNumber (ratio a b).

(** The exact whole number [a]. *)
Definition qnum_value (a : Z) : exact := ratio a 1.

(** The exact numbers [l] are, one by one, the fractions [qs]. *)
Fixpoint exact_values_are (l : list exact) (qs : list Q) : bool :=
  match l, qs with
  | [], [] => true
  | Some x :: l', q :: qs' => (Qeq_bool (this x) q && exact_values_are l' qs')%bool
  | _, _ => false
  end.

Definition sizing_example : PositionInput float :=
  {| entry := fnum 100; stop := fnum 95; balance := fnum 10000;
     riskPercent := fnum 1; feePercent := fnum 0.04; leverage := fnum 3 |}.

Definition sizing_example_exact : PositionInput exact :=
  {| entry := qnum 100 1; stop := qnum 95 1; balance := qnum 10000 1;
     riskPercent := qnum 1 1; feePercent := qnum 4 100; leverage := qnum 3 1 |}.

(** The smallest positive binary64 number, 2^-1074 (about 4.9e-324). *)
Definition min_positive : float := 0x1p-1074%float.

Definition sizing_tiny_risk : PositionInput float :=
  {| entry := fnum 100; stop := fnum 95; balance := fnum 10000;
     riskPercent := fnum min_positive; feePercent := fnum 0.04; leverage := fnum 3 |}.

Definition sizing_rounding : PositionInput float :=
  {| entry := fnum 64250; stop := fnum 63900; balance := fnum 10000;
     riskPercent := fnum 1; feePercent := fnum 0.04; leverage := fnum 3 |}.

Definition journal_example : list (JournalEntry float) :=
  [ {| date := "2024-01-01"; startBalance := fnum 1000; endBalance := fnum 1050; notes := "" |};
    {| date := "2024-01-02"; startBalance := fnum 1050; endBalance := fnum 1020; notes := "" |} ].

Definition journal_example_exact : list (JournalEntry exact) :=
  [ {| date := "2024-01-01"; startBalance := qnum 1000 1; endBalance := qnum 1050 1; notes := "" |};
    {| date := "2024-01-02"; startBalance := qnum 1050 1; endBalance := qnum 1020 1; notes := "" |} ].

Definition losing_row : EquityRow float :=
  {| index := 1; row_date := "2024-01-01"; start := 1000%float;
     end_ := 960%float; pl := (-40)%float; retPct := (-4)%float |}.

Definition winning_row : EquityRow float :=
  {| index := 1; row_date := "2024-01-01"; start := 1000%float;
     end_ := 1050%float; pl := 50%float; retPct := 5%float |}.

(** A stand-in for [Number.prototype.toString] in the examples: an integer
    is printed in decimal, as JavaScript does below 1e21.  Elsewhere
    JavaScript prints the shortest decimal that reads back; this prints the
    mantissa and the binary exponent instead. *)
Definition print_float (x : float) : string :=
  match Prim2SF x with
  | S754_zero _ => "0"
  | S754_infinity s => if s then "-Infinity" else "Infinity"
  | S754_nan => "NaN"
  | S754_finite s m e =>
      let sign := if s then "-" else "" in
      if (0 <=? e)%Z then sign +:+ pretty (Z.pos m * 2 ^ e)%Z
      else if (Z.pos m mod 2 ^ (- e) =? 0)%Z then sign +:+ pretty (Z.pos m / 2 ^ (- e))%Z
      else sign +:+ pretty (Z.pos m) +:+ "p" +:+ pretty e
  end.

Definition one_day (note : string) : list (JournalEntry float) :=
  [ {| date := "2024-01-01"; startBalance := fnum 1000; endBalance := fnum 1050; notes := note |} ].

(** Two states of the daily form. *)
Definition form_example : Form float :=
  {| form_date := "2024-01-02"; form_startBalance := fnum 1050;
     form_endBalance := fnum 1000; form_notes := "stopped early" |}.

Definition form_new_day : Form float :=
  {| form_date := "2024-01-03"; form_startBalance := fnum 1000;
     form_endBalance := fnum 1010; form_notes := "" |}.

(** The notes of the examples have no white space at their ends. *)
Definition already_trimmed : string -> string := fun s => s.

Definition two_line_note : string := "a" +:+ newline +:+ "b".


(** ** The rest of the dashboard's state *)

(** [accountBalance], line 65: the end balance of the last row. *)
Definition accountBalance {num : Type} `{JsNumber num} (equity : list (EquityRow num)) : num :=
  match last equity with
  | Some r => end_ r
  | None => n0
  end.

(** The settings, line 48; a field that the stored object lacks is
    [VUndefined]. *)
Record Settings (num : Type) : Type := {
  currency : value num;
  settings_riskPercent : value num;
  maxDailyLossPercent : value num;
  dailyTargetPercent : value num;
  monthlyTargetPercent : value num;
  settings_feePercent : value num;
  settings_leverage : value num;
}.

Arguments currency {num} _.
Arguments settings_riskPercent {num} _.
Arguments maxDailyLossPercent {num} _.
Arguments dailyTargetPercent {num} _.
Arguments monthlyTargetPercent {num} _.
Arguments settings_feePercent {num} _.
Arguments settings_leverage {num} _.

(** The state [ps] of the position calculator, line 103. *)
Record SizingForm (num : Type) : Type := {
  ps_entry : value num;
  ps_stop : value num;
  balanceOverride : value num;
}.

Arguments ps_entry {num} _.
Arguments ps_stop {num} _.
Arguments balanceOverride {num} _.

Section Calculator.
Context {num : Type} `{JsNumber num}.
Variable StringToNumber : string -> num.

(** [positionCalc], lines 104-107 *)
Definition positionCalc (ps : SizingForm num) (settings : Settings num)
    (accountBalance : num) : option (PositionPlan num) :=
  let bal :=
    Number StringToNumber
      (or_else (or_else (balanceOverride ps) (VNumber accountBalance)) (VNumber n0)) in
  calcPosition StringToNumber
    {| entry := ps_entry ps; stop := ps_stop ps; balance := VNumber bal;
       riskPercent := settings_riskPercent settings;
       feePercent := settings_feePercent settings;
       leverage := settings_leverage settings |}.

End Calculator.

(** What the user does to the journal: submit the daily form (line 124) or
    press the delete button of a row (line 247). *)
Inductive action (num : Type) : Type :=
  | Save (form : Form num)
  | Remove (d : string).

Arguments Save {num} form.
Arguments Remove {num} d.

Section Journal.
Context {num : Type} `{JsNumber num}.
Variable StringToNumber : string -> num.
Variable trim : string -> string.

(** The journal after one action, and after a run of them. *)
Definition step (entries : list (JournalEntry num)) (a : action num)
    : list (JournalEntry num) :=
  match a with
  | Save form => addOrUpdateEntry StringToNumber trim entries form
  | Remove d => removeEntry d entries
  end.

Definition run (entries : list (JournalEntry num)) (actions : list (action num))
    : list (JournalEntry num) :=
  fold_left step actions entries.

End Journal.

(** One more fact of the arithmetic, true in binary64 and in exact
    arithmetic: 0 is falsy. *)
Class JsNumberZero (num : Type) `{JsNumber num} : Prop := {
  zero_falsy : truthy n0 = false;
}.

(** What a row shows of its entry: the date and the two balances. *)
Definition row_data {num : Type} (r : EquityRow num) : string * num * num :=
  (row_date r, start r, end_ r).

Section EntryData.
Context {num : Type} `{JsNumber num}.
Variable StringToNumber : string -> num.

(** The date of an entry and its two balances as [equity] coerces them. *)
Definition entry_data (e : JournalEntry num) : string * num * num :=
  (date e,
   Number StringToNumber (or_else (startBalance e) (VNumber n0)),
   Number StringToNumber (or_else (endBalance e) (VNumber n0))).

End EntryData.

(** The first entry of the date [d]. *)
Definition entry_of_date {num : Type} (d : string) (entries : list (JournalEntry num))
    : option (JournalEntry num) :=
  Array_find (fun e => String.eqb (date e) d) entries.

(** Each date occurs once in the journal. *)
Definition unique_dates {num : Type} (entries : list (JournalEntry num)) : Prop :=
  NoDup (date <$> entries).

(** The entries whose date falls in the year-month [ym]. *)
Definition entries_of_month {num : Type} (ym : string) (entries : list (JournalEntry num))
    : list (JournalEntry num) :=
  List.filter (fun e => startsWith (date e) ym) entries.

(** More data of the examples. *)
Definition journal_reversed : list (JournalEntry float) := reverse journal_example.

Definition journal_two_months : list (JournalEntry float) :=
  [ {| date := "2024-02-01"; startBalance := fnum 1020; endBalance := fnum 1100; notes := "" |};
    {| date := "2024-01-01"; startBalance := fnum 1000; endBalance := fnum 1050; notes := "a,b" |};
    {| date := "2024-01-02"; startBalance := fnum 1050; endBalance := fnum 1020; notes := "" |} ].

Definition losing_row_exact : EquityRow exact :=
  {| index := 1; row_date := "2024-01-01"; start := ratio 1000 1;
     end_ := ratio 960 1; pl := ratio (-40) 1; retPct := ratio (-4) 1 |}.

Definition sizing_no_leverage : PositionInput exact :=
  {| entry := qnum 100 1; stop := qnum 95 1; balance := qnum 10000 1;
     riskPercent := qnum 1 1; feePercent := qnum 4 100; leverage := VUndefined |}.

Definition sizing_same_stop : PositionInput exact :=
  {| entry := qnum 100 1; stop := qnum 100 1; balance := qnum 10000 1;
     riskPercent := qnum 1 1; feePercent := qnum 4 100; leverage := qnum 3 1 |}.

Definition settings_example : Settings float :=
  {| currency := VString "USD"; settings_riskPercent := fnum 1;
     maxDailyLossPercent := fnum 3; dailyTargetPercent := fnum 1;
     monthlyTargetPercent := fnum 20; settings_feePercent := fnum 0.04;
     settings_leverage := fnum 3 |}.

Definition ps_example : SizingForm float :=
  {| ps_entry := fnum 100; ps_stop := fnum 95; balanceOverride := VString "" |}.

Definition ps_override : SizingForm float :=
  {| ps_entry := fnum 100; ps_stop := fnum 95; balanceOverride := fnum 10000 |}.


(** * Properties *)

(** ** Exact numbers *)

(** An exact number is known by the value of its fraction. *)
Lemma exact_is (a : exact) (q : Q) :
  match a with Some x => Qeq_bool (this x) q | None => false end = true ->
  a = Some (Q2Qc q).
Proof.
  destruct a as [x|]; [|discriminate].
  intros E. apply Qeq_bool_iff in E. f_equal.
  apply Qc_is_canon. simpl. rewrite Qred_correct. exact E.
Qed.

Ltac exact_value := apply exact_is; vm_compute; reflexivity.

Lemma exact_list_is (l : list exact) (qs : list Q) :
  exact_values_are l qs = true -> l = (fun q => Some (Q2Qc q)) <$> qs.
Proof.
  revert qs. induction l as [|[x|] l IH]; intros [|q qs]; cbn; try discriminate.
  - reflexivity.
  - intros E. apply andb_true_iff in E as [E1 E2].
    f_equal; [apply exact_is; exact E1 | apply IH; exact E2].
Qed.

Ltac exact_values := apply exact_list_is; vm_compute; reflexivity.

(** ** Position sizing *)

Section PositionSizerFacts.
Context {num : Type} `{JsNumber num}.
Variable StringToNumber : string -> num.
Local Open Scope js_scope.

(** What [calcPosition] tests before it computes a plan. *)
Lemma calcPosition_some (i : PositionInput num) (p : PositionPlan num) :
  calcPosition StringToNumber i = Some p ->
  let e := Number StringToNumber (entry i) in
  let s := Number StringToNumber (stop i) in
  let bal := Number StringToNumber (balance i) in
  let rPct := Number StringToNumber (riskPercent i) / n100 in
  truthy e = true /\ truthy s = true /\ truthy bal = true /\ truthy rPct = true /\
  (Math_abs (e - s) <= n0) = false /\
  p = {| plan_entry := e; plan_stop := s; stopDist := Math_abs (e - s);
         riskValue := bal * rPct;
         positionUSDT := bal * rPct / (Math_abs (e - s) / e);
         units := bal * rPct / (Math_abs (e - s) / e) / e;
         notional := bal * rPct / (Math_abs (e - s) / e);
         marginRequired :=
           bal * rPct / (Math_abs (e - s) / e)
           / Math_max n1 (Number StringToNumber (or_else (leverage i) (VNumber n1)));
         estFees :=
           bal * rPct / (Math_abs (e - s) / e)
           * (Number StringToNumber (feePercent i) / n100) |}.
Proof.
  unfold calcPosition. cbv zeta.
  destruct (truthy (Number StringToNumber (entry i))); [|discriminate].
  destruct (truthy (Number StringToNumber (stop i))); [|discriminate].
  destruct (truthy (Number StringToNumber (balance i))); [|discriminate].
  destruct (truthy (Number StringToNumber (riskPercent i) / n100)); [|discriminate].
  cbn [negb orb].
  destruct (Math_abs _ <= n0); [discriminate|].
  intros [= <-]. repeat split.
Qed.

End PositionSizerFacts.

(** C1.  Whenever [calcPosition] returns a plan, in either arithmetic, its
    fields are the stated formulas of the coerced inputs: riskValue =
    balance * (riskPercent/100), positionUSDT (the notional) = riskValue /
    (stopDist/entry) with stopDist = |entry - stop|, units =
    positionUSDT/entry, marginRequired = positionUSDT/lev with lev the
    leverage clamped to a minimum of 1, Math.max(1, Number(leverage || 1)),
    and estFees = positionUSDT * (feePercent/100).  On entry 100, stop 95,
    balance 10000, riskPercent 1, feePercent 0.04, leverage 3 the plan has
    stopDist 5, riskValue 100, notional 2000, units 20, estFees 0.8 and
    marginRequired 666.67 to two decimals: it is the quotient of 2000 by
    3, which lies between 666.665 and 666.675. *)
Theorem calcPosition_plan :
  (forall (num : Type) (N : JsNumber num) (StringToNumber : string -> num)
          (i : PositionInput num) (p : PositionPlan num),
      calcPosition StringToNumber i = Some p ->
      let e := Number StringToNumber (entry i) in
      let s := Number StringToNumber (stop i) in
      let bal := Number StringToNumber (balance i) in
      let lev := Math_max n1 (Number StringToNumber (or_else (leverage i) (VNumber n1))) in
      (plan_entry p = e /\ plan_stop p = s /\
       stopDist p = Math_abs (e - s) /\
       riskValue p = bal * (Number StringToNumber (riskPercent i) / n100) /\
       positionUSDT p = riskValue p / (stopDist p / e) /\
       units p = positionUSDT p / e /\
       notional p = positionUSDT p /\
       marginRequired p = positionUSDT p / lev /\
       estFees p = positionUSDT p * (Number StringToNumber (feePercent i) / n100))%js)
  /\ (forall (num : Type) (N : JsNumber num) (L : JsNumberLaws num) (x : num),
        Math_max n1 x = NaN \/ (n1 <= Math_max n1 x)%js = true)
  /\ (forall StringToNumber : string -> float,
        calcPosition StringToNumber sizing_example
        = Some {| plan_entry := 100; plan_stop := 95; stopDist := 5; riskValue := 100;
                  positionUSDT := 2000; units := 20; notional := 2000;
                  marginRequired := 2000 / 3; estFees := 0.8 |}
        /\ (666.665 <? 2000 / 3) = true /\ (2000 / 3 <? 666.675) = true)%float
  /\ (forall StringToNumber : string -> exact,
        exists p, calcPosition StringToNumber sizing_example_exact = Some p
          /\ stopDist p = ratio 5 1 /\ riskValue p = ratio 100 1
          /\ positionUSDT p = ratio 2000 1 /\ units p = ratio 20 1
          /\ marginRequired p = ratio 2000 3 /\ estFees p = ratio 8 10).
Proof.
  split; [|split; [|split]].
  - intros num N stn i p Hp e s bal lev.
    destruct (calcPosition_some stn i p Hp) as (_ & _ & _ & _ & _ & ->).
    cbn. repeat split.
  - intros num N L x. apply max_one_clamps.
  - intros stn. repeat split.
  - intros stn. eexists. split; [reflexivity|].
    cbn -[ratio]. repeat split; exact_value.
Qed.

(** The formulas at the example, from [calcPosition_plan]. *)
Lemma calcPosition_plan_witness :
  exists p, calcPosition no_strings sizing_example = Some p
    /\ riskValue p = (10000 * (1 / 100))%float
    /\ marginRequired p = (positionUSDT p / float_max 1 3)%float.
Proof.
  eexists. split; [vm_compute; reflexivity|].
  pose proof (proj1 calcPosition_plan float _ no_strings sizing_example _ eq_refl) as F.
  cbv zeta in F. destruct F as (_ & _ & _ & Hr & _ & _ & _ & Hm & _).
  split; [exact Hr | exact Hm].
Defined.

(** ** The laws hold in both arithmetics *)

Lemma SFcompare_swap (a b : spec_float) :
  SFcompare a b = Some Lt -> SFcompare b a = Some Gt.
Proof.
  destruct a as [sa|sa| |sa ma ea], b as [sb|sb| |sb mb eb]; cbn;
    try discriminate; try (destruct sa; discriminate);
    try (destruct sb; discriminate);
    try (destruct sa, sb; (discriminate || reflexivity)).
  rewrite (Z.compare_antisym ea eb).
  change (Pos.compare_cont Eq mb ma) with (Pos.compare mb ma).
  change (Pos.compare_cont Eq ma mb) with (Pos.compare ma mb).
  rewrite (Pos.compare_antisym ma mb).
  destruct sa, sb; try discriminate; try reflexivity;
    destruct (ea ?= eb)%Z; cbn; try discriminate; try reflexivity;
    destruct (ma ?= mb)%positive; cbn; (discriminate || reflexivity).
Qed.

Lemma SFcompare_refl (a : spec_float) :
  a <> S754_nan -> SFcompare a a = Some Eq.
Proof.
  destruct a as [s|s| |s m e]; cbn; intros E; try congruence.
  - destruct s; reflexivity.
  - rewrite Z.compare_refl.
    change (Pos.compare_cont Eq m m) with (Pos.compare m m).
    rewrite Pos.compare_refl. destruct s; reflexivity.
Qed.

Lemma float_is_nan (x : float) : PrimFloat.is_nan x = true -> x = PrimFloat.nan.
Proof.
  unfold PrimFloat.is_nan. rewrite FloatAxioms.eqb_spec. unfold SFeqb. intros E.
  destruct (Prim2SF x) eqn:Ex;
    try (rewrite SFcompare_refl in E by discriminate; discriminate).
  apply Prim2SF_inj. rewrite Ex. reflexivity.
Qed.

Lemma float_is_zero (x : float) :
  PrimFloat.is_zero x = true -> exists b, Prim2SF x = S754_zero b.
Proof.
  unfold PrimFloat.is_zero. rewrite FloatAxioms.eqb_spec. unfold SFeqb.
  change (Prim2SF 0%float) with (S754_zero false).
  destruct (Prim2SF x) as [b|b| |b m e]; cbn; try discriminate.
  - intros _. exists b. reflexivity.
  - destruct b; discriminate.
  - destruct b; discriminate.
Qed.

#[export] Instance float_laws : JsNumberLaws float.
Proof.
  split.
  - reflexivity.
  - intros a b. cbn. rewrite FloatAxioms.ltb_spec, FloatAxioms.leb_spec. unfold SFltb, SFleb.
    destruct (SFcompare (Prim2SF a) (Prim2SF b)) as [[]|] eqn:E; try discriminate.
    intros _. rewrite (SFcompare_swap _ _ E). reflexivity.
  - intros x a. cbn. unfold float_truthy. intros F N.
    apply negb_false_iff, orb_true_iff in F. destruct F as [Z|F].
    + destruct (float_is_zero x Z) as [b Eb].
      rewrite !FloatAxioms.leb_spec, Eb. change (Prim2SF 0%float) with (S754_zero false).
      unfold SFleb. destruct (Prim2SF a) as [| | |]; reflexivity.
    + destruct N. apply float_is_nan. exact F.
  - intros x. cbn. unfold float_max.
    destruct (PrimFloat.is_nan 1 || PrimFloat.is_nan x)%bool; [left; reflexivity|].
    right. destruct (PrimFloat.ltb 1 x) eqn:E.
    + rewrite FloatAxioms.ltb_spec in E. rewrite FloatAxioms.leb_spec.
      unfold SFltb in E. unfold SFleb.
      destruct (SFcompare (Prim2SF 1) (Prim2SF x)) as [[]|]; (discriminate || reflexivity).
    + destruct (PrimFloat.ltb x 1); reflexivity.
Qed.

#[export] Instance exact_laws : JsNumberLaws exact.
Proof.
  split.
  - reflexivity.
  - intros [a|] [b|]; cbn; try discriminate.
    intros L. apply bool_decide_eq_true in L. apply bool_decide_eq_false.
    intros G. apply (Qclt_not_le _ _ L G).
  - intros [x|] a; cbn; [|congruence].
    intros F _. apply bool_decide_eq_false in F.
    assert (x = 0%Qc) as -> by (destruct (decide (x = 0%Qc)); [assumption|contradiction]).
    reflexivity.
  - intros [x|]; [right|left; reflexivity]. cbn.
    apply bool_decide_eq_true.
    destruct (decide (Q2Qc (inject_Z 1) < x)%Qc) as [L|L].
    + apply Qclt_le_weak. exact L.
    + apply Qcle_refl.
Qed.

(** ** Position sizing: when there is no plan *)

Lemma exact_div_some (x y : Qc) :
  y <> 0%Qc -> exact_div (Some x) (Some y) = Some (x / y)%Qc.
Proof. intros Hy. unfold exact_div. destruct (decide (y = 0%Qc)); [contradiction|reflexivity]. Qed.

Lemma Qc_hundred_nonzero : Q2Qc (inject_Z 100) <> 0%Qc.
Proof. intros E. apply (f_equal this) in E. discriminate E. Qed.

Lemma Qc_div_nonzero (x y : Qc) : x <> 0%Qc -> y <> 0%Qc -> (x / y)%Qc <> 0%Qc.
Proof.
  intros Hx Hy E. apply Hx.
  replace x with (x / y * y)%Qc by (field; exact Hy).
  rewrite E. ring.
Qed.

(** In exact arithmetic a hundredth of [x] is falsy exactly when [x] is. *)
Lemma exact_hundredth_truthy (x : exact) :
  truthy (num_div x n100) = truthy x.
Proof.
  destruct x as [q|]; [|reflexivity].
  change (exact_truthy (exact_div (Some q) (Some (Q2Qc (inject_Z 100)))) = exact_truthy (Some q)).
  rewrite exact_div_some by exact Qc_hundred_nonzero. cbn.
  destruct (decide (q = 0%Qc)) as [->|Hq].
  - rewrite !bool_decide_eq_false_2; [reflexivity| |]; intros E; apply E; [reflexivity|].
    apply Qc_is_canon. reflexivity.
  - rewrite !bool_decide_eq_true_2; [reflexivity|exact Hq|].
    apply Qc_div_nonzero; [exact Hq|exact Qc_hundred_nonzero].
Qed.

(** C2 (amended).  [calcPosition] is total (it cannot throw), and it returns
    null exactly when one of entry, stop and balance coerces to a falsy
    number (0, -0 or NaN), or riskPercent/100 is falsy, or stopDist =
    |entry - stop| is <= 0; on every other input it returns a plan.  In exact
    arithmetic riskPercent/100 is falsy exactly when riskPercent is. *)
Theorem calcPosition_null :
  (forall (num : Type) (N : JsNumber num) (StringToNumber : string -> num)
          (i : PositionInput num),
      let e := Number StringToNumber (entry i) in
      let s := Number StringToNumber (stop i) in
      let bal := Number StringToNumber (balance i) in
      let rPct := (Number StringToNumber (riskPercent i) / n100)%js in
      (calcPosition StringToNumber i = None <->
         truthy e = false \/ truthy s = false \/ truthy bal = false \/
         truthy rPct = false \/ (Math_abs (e - s) <= n0)%js = true)
      /\ (calcPosition StringToNumber i <> None <->
          exists p, calcPosition StringToNumber i = Some p))
  /\ (forall x : exact, truthy (x / n100)%js = truthy x).
Proof.
  split; [|exact exact_hundredth_truthy].
  intros num N stn i e s bal rPct. split.
  - unfold calcPosition. cbv zeta. fold e s bal rPct.
    destruct (truthy e), (truthy s), (truthy bal), (truthy rPct); cbn [negb orb];
      try (split; [intros _; auto 6 | reflexivity]).
    destruct (Math_abs (e - s) <= n0)%js.
    + split; [intros _; auto 6 | reflexivity].
    + split; [discriminate|]. intros [E|[E|[E|[E|E]]]]; discriminate E.
  - destruct (calcPosition stn i) as [p|].
    + split; [intros _; exists p; reflexivity | discriminate].
    + split; [congruence | intros [p E]; discriminate E].
Qed.

(** C2, as stated, fails in binary64: with riskPercent = 2^-1074, which is
    neither zero nor NaN, riskPercent/100 rounds to 0 and the result is
    null although entry, stop, balance and riskPercent are all truthy and
    the stop distance is positive. *)
Lemma calcPosition_null_on_tiny_risk :
  calcPosition no_strings sizing_tiny_risk = None
  /\ truthy (Number no_strings (entry sizing_tiny_risk)) = true
  /\ truthy (Number no_strings (stop sizing_tiny_risk)) = true
  /\ truthy (Number no_strings (balance sizing_tiny_risk)) = true
  /\ truthy (Number no_strings (riskPercent sizing_tiny_risk)) = true
  /\ (Math_abs (Number no_strings (entry sizing_tiny_risk)
                - Number no_strings (stop sizing_tiny_risk)) <= n0)%js = false.
Proof. vm_compute. repeat split. Qed.

(** ** Position sizing: the risk taken *)

(** A divisor that the guards of [calcPosition] keep away from zero. *)
Ltac nonzero_divisor :=
  match goal with
  | |- context [decide (?a = ?b)] =>
      let E := fresh in
      destruct (decide (a = b)) as [E|_];
      [ exfalso; revert E;
        first [ exact Qc_hundred_nonzero | assumption
              | apply Qc_div_nonzero; assumption ]
      | cbn ]
  end.

(** C10.  In exact arithmetic, whenever [calcPosition] returns a plan: its
    stopDist is |entry - stop| and its riskValue is balance *
    (riskPercent/100), of the coerced inputs; units, stopDist and riskValue
    are numbers, with stopDist > 0 and riskValue not 0; and units *
    stopDist = riskValue, so the loss from entry to stop over the units,
    units * |entry - stop|, is exactly the configured risk balance *
    (riskPercent/100).  None of this depends on the fee or the leverage:
    with any other values for them there is again a plan, with the same
    units, stopDist and riskValue. *)
Theorem units_times_stopDist (StringToNumber : string -> exact)
    (i : PositionInput exact) (p : PositionPlan exact) :
  calcPosition StringToNumber i = Some p ->
  let e := Number StringToNumber (entry i) in
  let s := Number StringToNumber (stop i) in
  let risk :=
    (Number StringToNumber (balance i)
     * (Number StringToNumber (riskPercent i) / n100))%js in
  stopDist p = Math_abs (e - s)%js
  /\ riskValue p = risk
  /\ (units p * Math_abs (e - s))%js = risk
  /\ (units p * stopDist p)%js = riskValue p
  /\ (exists u d rv : Qc,
        units p = Some u /\ stopDist p = Some d /\ riskValue p = Some rv
        /\ (0 < d)%Qc /\ rv <> 0%Qc /\ (u * d)%Qc = rv)
  /\ forall fee lev : value exact,
       exists p',
         calcPosition StringToNumber
           {| entry := entry i; stop := stop i; balance := balance i;
              riskPercent := riskPercent i; feePercent := fee; leverage := lev |}
         = Some p'
         /\ units p' = units p /\ stopDist p' = stopDist p
         /\ riskValue p' = riskValue p.
Proof.
  intros Hp e s risk. subst e s risk.
  destruct (calcPosition_some StringToNumber i p Hp) as (He & Hs & Hb & Hr & Hd & ->).
  cbn [units stopDist riskValue].
  split; [reflexivity|]. split; [reflexivity|].
  assert (forall fee lev : value exact,
            exists p',
              calcPosition StringToNumber
                {| entry := entry i; stop := stop i; balance := balance i;
                   riskPercent := riskPercent i; feePercent := fee; leverage := lev |}
              = Some p'
              /\ units p' = (Number StringToNumber (balance i)
                             * (Number StringToNumber (riskPercent i) / n100)
                             / (Math_abs (Number StringToNumber (entry i)
                                          - Number StringToNumber (stop i))
                                / Number StringToNumber (entry i))
                             / Number StringToNumber (entry i))%js
              /\ stopDist p' = Math_abs (Number StringToNumber (entry i)
                                         - Number StringToNumber (stop i))%js
              /\ riskValue p' = (Number StringToNumber (balance i)
                                 * (Number StringToNumber (riskPercent i) / n100))%js)
    as Hind.
  { intros fee lev. unfold calcPosition. cbv zeta.
    cbn [entry stop balance riskPercent feePercent leverage].
    rewrite He, Hs, Hb, Hr. cbn [negb orb]. rewrite Hd.
    eexists. split; [reflexivity|]. repeat split. }
  assert ((Number StringToNumber (balance i)
           * (Number StringToNumber (riskPercent i) / n100)
           / (Math_abs (Number StringToNumber (entry i) - Number StringToNumber (stop i))
              / Number StringToNumber (entry i))
           / Number StringToNumber (entry i)
           * Math_abs (Number StringToNumber (entry i) - Number StringToNumber (stop i)))%js
          = (Number StringToNumber (balance i)
             * (Number StringToNumber (riskPercent i) / n100))%js
          /\ exists u d rv : Qc,
               (Number StringToNumber (balance i)
                * (Number StringToNumber (riskPercent i) / n100)
                / (Math_abs (Number StringToNumber (entry i)
                             - Number StringToNumber (stop i))
                   / Number StringToNumber (entry i))
                / Number StringToNumber (entry i))%js = Some u
               /\ Math_abs (Number StringToNumber (entry i)
                            - Number StringToNumber (stop i))%js = Some d
               /\ (Number StringToNumber (balance i)
                   * (Number StringToNumber (riskPercent i) / n100))%js = Some rv
               /\ (0 < d)%Qc /\ rv <> 0%Qc /\ (u * d)%Qc = rv) as [Hloss Hnum].
  { clear Hind Hp. rewrite exact_hundredth_truthy in Hr.
    revert He Hs Hb Hr Hd.
    generalize (Number StringToNumber (entry i)) (Number StringToNumber (stop i))
      (Number StringToNumber (balance i)) (Number StringToNumber (riskPercent i)).
    intros [e|] [s|] [b|] [r|]; cbn; try discriminate.
    intros He _ Hb Hr Hd.
    apply bool_decide_eq_true in He, Hb, Hr. apply bool_decide_eq_false in Hd.
    set (d := if decide (e - s < 0)%Qc then (- (e - s))%Qc else (e - s)%Qc) in *.
    assert (d <> 0%Qc) as Hd0.
    { intros E. apply Hd. rewrite E. apply Qcle_refl. }
    repeat nonzero_divisor.
    assert ((b * (r / Q2Qc (inject_Z 100)) / (d / e) / e * d)%Qc
            = (b * (r / Q2Qc (inject_Z 100)))%Qc) as Hfield.
    { field. repeat split; first [assumption | exact Qc_hundred_nonzero]. }
    split; [f_equal; exact Hfield|].
    exists (b * (r / Q2Qc (inject_Z 100)) / (d / e) / e)%Qc, d,
      (b * (r / Q2Qc (inject_Z 100)))%Qc.
    split; [reflexivity|]. split; [reflexivity|]. split; [reflexivity|].
    split; [apply Qcnot_le_lt; exact Hd|]. split; [|exact Hfield].
    intros E. apply Qcmult_integral in E as [E|E]; [exact (Hb E)|].
    exact (Qc_div_nonzero r _ Hr Qc_hundred_nonzero E). }
  split; [exact Hloss|]. split; [exact Hloss|]. split; [exact Hnum|exact Hind].
Qed.

(** The example: 20 units over a stop distance of |100 - 95| = 5 lose 100,
    the risk of 1 per cent of 10000. *)
Lemma units_times_stopDist_witness :
  exists p, calcPosition no_strings sizing_example_exact = Some p
    /\ units p = ratio 20 1
    /\ stopDist p = Math_abs (qnum_value 100 - qnum_value 95)%js
    /\ (units p * Math_abs (qnum_value 100 - qnum_value 95))%js
       = (qnum_value 10000 * (qnum_value 1 / n100))%js
    /\ (units p * stopDist p)%js = riskValue p.
Proof.
  eexists. split; [reflexivity|].
  destruct (units_times_stopDist no_strings sizing_example_exact _ eq_refl)
    as (Hd & _ & Hloss & Hrisk & _).
  split; [exact_value|]. split; [exact Hd|]. split; [exact Hloss|exact Hrisk].
Defined.

(** In binary64 the same product is off by rounding: with entry 64250, stop
    63900, balance 10000 and riskPercent 1 the risk value is 100 and units *
    stopDist is the next number above 100. *)
Lemma units_times_stopDist_rounded :
  exists p, calcPosition no_strings sizing_rounding = Some p
    /\ riskValue p = 100%float
    /\ (units p * stopDist p)%js = 0x1.9000000000001p+6%float.
Proof. eexists. split; [vm_compute; reflexivity|]. vm_compute. split; reflexivity. Qed.

(** ** The sort *)

Section SortFacts.
Context {A : Type} (cmp : A -> A -> comparison).

(** [x] does not come after [y]. *)
Let before (x y : A) : Prop := cmp x y <> Gt.

Hypothesis cmp_total : forall x y, cmp x y = Gt -> before y x.
Hypothesis cmp_trans : forall x y z, before x y -> before y z -> before x z.

Lemma sort_insert_perm (x : A) (l : list A) : sort_insert cmp x l ≡ₚ x :: l.
Proof.
  induction l as [|y l IH]; cbn; [reflexivity|].
  destruct (cmp x y); try reflexivity.
  rewrite IH. apply Permutation_swap.
Qed.

Lemma Array_sort_perm (l : list A) : Array_sort cmp l ≡ₚ l.
Proof.
  induction l as [|x l IH]; cbn; [reflexivity|].
  rewrite sort_insert_perm, IH. reflexivity.
Qed.

Lemma sort_insert_sorted (x : A) (l : list A) :
  StronglySorted before l -> StronglySorted before (sort_insert cmp x l).
Proof.
  induction 1 as [|y l Hl IH Hy]; cbn.
  - repeat constructor.
  - destruct (cmp x y) eqn:E.
    + constructor; [constructor; assumption|].
      assert (before x y) as Hxy by (unfold before; congruence).
      constructor; [exact Hxy|].
      eapply Forall_impl; [exact Hy|]. intros z Hz. exact (cmp_trans _ _ _ Hxy Hz).
    + constructor; [constructor; assumption|].
      assert (before x y) as Hxy by (unfold before; congruence).
      constructor; [exact Hxy|].
      eapply Forall_impl; [exact Hy|]. intros z Hz. exact (cmp_trans _ _ _ Hxy Hz).
    + constructor; [exact IH|].
      rewrite sort_insert_perm. constructor; [apply cmp_total; exact E|exact Hy].
Qed.

Lemma Array_sort_sorted (l : list A) : StronglySorted before (Array_sort cmp l).
Proof.
  induction l as [|x l IH]; cbn; [constructor|].
  apply sort_insert_sorted. exact IH.
Qed.

End SortFacts.

(** The sort is stable: it keeps the order of the elements that share a key,
    when the comparator separates no two elements of the same key. *)
Lemma Array_sort_stable {A : Type} (cmp : A -> A -> comparison) (P : A -> bool)
    (l : list A) :
  (forall x y, P x = true -> P y = true -> cmp x y <> Gt) ->
  List.filter P (Array_sort cmp l) = List.filter P l.
Proof.
  intros Hkey.
  assert (forall x l, List.filter P (sort_insert cmp x l) = List.filter P (x :: l)) as Hins.
  { intros x k. induction k as [|y k IH]; [reflexivity|].
    cbn [sort_insert]. destruct (cmp x y) eqn:E; try reflexivity.
    cbn [List.filter] in *. rewrite IH.
    destruct (P x) eqn:Px, (P y) eqn:Py; try reflexivity.
    destruct (Hkey x y Px Py E). }
  induction l as [|x l IH]; [reflexivity|].
  cbn [Array_sort]. rewrite Hins. cbn. rewrite IH. reflexivity.
Qed.

(** ** The order of the dates *)

Lemma date_le_total (a b : string) : localeCompare a b = Gt -> date_le b a.
Proof.
  unfold date_le, localeCompare. rewrite (String.compare_antisym a b).
  destruct (String.compare b a); cbn; congruence.
Qed.

Lemma date_le_cases (a b : string) :
  date_le a b <-> OrderedTypeEx.String_as_OT.lt a b \/ a = b.
Proof.
  unfold date_le, localeCompare.
  rewrite <- OrderedTypeEx.String_as_OT.cmp_lt, <- OrderedTypeEx.String_as_OT.cmp_eq.
  unfold OrderedTypeEx.String_as_OT.cmp.
  destruct (String.compare a b); split; intros; try congruence; auto.
  destruct H as [H|H]; discriminate H.
Qed.

Lemma date_le_trans (a b c : string) : date_le a b -> date_le b c -> date_le a c.
Proof.
  rewrite !date_le_cases. intros [Hab| ->] [Hbc| ->]; auto.
  left. exact (OrderedTypeEx.String_as_OT.lt_trans _ _ _ Hab Hbc).
Qed.

(** ** The equity series *)

Lemma StronglySorted_imap {A B : Type} (R1 : relation A) (R2 : relation B)
    (f : nat -> A -> B) (l : list A) :
  (forall i j x y, R1 x y -> R2 (f i x) (f j y)) ->
  StronglySorted R1 l -> StronglySorted R2 (imap f l).
Proof.
  intros Hf Hl. revert f Hf.
  induction Hl as [|x l Hl IH Hx]; intros f Hf; cbn; constructor.
  - apply IH. intros i j. apply Hf.
  - apply Forall_forall. intros y Hy.
    apply elem_of_lookup_imap in Hy as (i & z & -> & Hz).
    apply Hf. rewrite Forall_forall in Hx. apply Hx.
    eapply list_elem_of_lookup_2. exact Hz.
Qed.

Section EquityFacts.
Context {num : Type} `{JsNumber num}.
Variable StringToNumber : string -> num.

Lemma sorted_entries_sorted (es : list (JournalEntry num)) :
  StronglySorted (fun a b => date_le (date a) (date b)) (sorted_entries es).
Proof.
  apply (Array_sort_sorted (fun a b => localeCompare (date a) (date b))).
  - intros x y. apply date_le_total.
  - intros x y z. apply date_le_trans.
Qed.

(** Entries of one date keep the order they have in the journal. *)
Lemma sorted_entries_stable (d : string) (es : list (JournalEntry num)) :
  List.filter (fun e => String.eqb (date e) d) (sorted_entries es)
  = List.filter (fun e => String.eqb (date e) d) es.
Proof.
  apply Array_sort_stable. intros x y Hx Hy.
  apply String.eqb_eq in Hx, Hy. rewrite Hx, Hy. unfold localeCompare.
  pose proof (String.compare_antisym d d) as E.
  destruct (String.compare d d); cbn in E; congruence.
Qed.

Lemma equity_dates (es : list (JournalEntry num)) :
  row_date <$> equity StringToNumber es = date <$> sorted_entries es.
Proof.
  unfold equity. fold (sorted_entries es). rewrite fmap_imap.
  rewrite (imap_ext _ (const date)) by reflexivity. apply imap_const.
Qed.

Lemma equity_indices (es : list (JournalEntry num)) :
  index <$> equity StringToNumber es = seq 1 (length es).
Proof.
  unfold equity. fold (sorted_entries es). rewrite fmap_imap.
  rewrite (imap_ext _ (fun j _ => S j)).
  - rewrite imap_seq_0, fmap_S_seq. f_equal.
    apply Permutation_length, Array_sort_perm.
  - intros i e _. cbn. lia.
Qed.

Lemma equity_length (es : list (JournalEntry num)) :
  length (equity StringToNumber es) = length es.
Proof. rewrite <- (length_fmap index), equity_indices. apply length_seq. Qed.

Lemma equity_sorted (es : list (JournalEntry num)) :
  sorted_by_date (equity StringToNumber es).
Proof.
  unfold sorted_by_date, equity. fold (sorted_entries es).
  eapply StronglySorted_imap; [|apply sorted_entries_sorted].
  intros i j x y Hxy. exact Hxy.
Qed.

End EquityFacts.

(** C3.  In either arithmetic and for every journal, the equity series is
    sorted by date ascending in the order of the sort (every row's date is
    at most the date of every later row, position by position on the code
    units), its index fields are 1, 2, ..., n with n the number of entries,
    and its dates are the dates of the entries, rearranged. *)
Theorem equity_sorted_indexed (num : Type) (N : JsNumber num)
    (StringToNumber : string -> num) (entries : list (JournalEntry num)) :
  sorted_by_date (equity StringToNumber entries)
  /\ index <$> equity StringToNumber entries = seq 1 (length entries)
  /\ length (equity StringToNumber entries) = length entries
  /\ row_date <$> equity StringToNumber entries ≡ₚ date <$> entries.
Proof.
  split; [apply equity_sorted|]. split; [apply equity_indices|]. split.
  - apply equity_length.
  - rewrite equity_dates. apply fmap_Permutation, Array_sort_perm.
Qed.

Section RowFacts.
Context {num : Type} `{JsNumber num}.
Variable StringToNumber : string -> num.
Local Open Scope js_scope.

(** Every row of the series is [equity_row] at some entry of the journal. *)
Lemma equity_rows (es : list (JournalEntry num)) (r : EquityRow num) :
  r ∈ equity StringToNumber es ->
  exists i e, e ∈ es /\ r = equity_row StringToNumber i e.
Proof.
  unfold equity. intros Hr.
  apply elem_of_lookup_imap in Hr as (i & e & -> & He).
  exists i, e. split; [|reflexivity].
  apply list_elem_of_lookup_2 in He.
  rewrite <- (Array_sort_perm (fun a b => localeCompare (date a) (date b)) es).
  exact He.
Qed.

Lemma equity_row_formulas (i : nat) (e : JournalEntry num) :
  let r := equity_row StringToNumber i e in
  pl r = end_ r - start r
  /\ ((start r > n0) = true -> retPct r = pl r / start r * n100)
  /\ ((start r > n0) = false -> retPct r = n0).
Proof.
  cbn. split; [reflexivity|].
  destruct (_ > n0); split; intros; (reflexivity || discriminate).
Qed.

End RowFacts.

(** C4.  In either arithmetic every row of the equity series has pl = end -
    start, retPct = pl/start*100 when start > 0, and retPct = 0 when
    start > 0 is false, which is the case at start = 0.  The journal with
    2024-01-01 from 1000 to 1050 and 2024-01-02 from 1050 to 1020 gives pl
    50 and -30, and retPct 5 and -2.857 to three decimals: the second is
    (-30/1050)*100, which lies between -2.8575 and -2.8565 (in exact
    arithmetic it is -20/7). *)
Theorem equity_row_fields :
  (forall (num : Type) (N : JsNumber num) (StringToNumber : string -> num)
          (entries : list (JournalEntry num)) (r : EquityRow num),
      r ∈ equity StringToNumber entries ->
      (pl r = end_ r - start r
       /\ ((start r > n0) = true -> retPct r = pl r / start r * n100)
       /\ ((start r > n0) = false -> retPct r = n0))%js)
  /\ (@n0 float _ > n0)%js = false
  /\ (@n0 exact _ > n0)%js = false
  /\ (forall StringToNumber : string -> float,
        equity StringToNumber journal_example
        = [ {| index := 1; row_date := "2024-01-01"; start := 1000; end_ := 1050;
               pl := 50; retPct := 5 |};
            {| index := 2; row_date := "2024-01-02"; start := 1050; end_ := 1020;
               pl := -30; retPct := -30 / 1050 * 100 |} ]
        /\ (-2.8575 <? -30 / 1050 * 100) = true
        /\ (-30 / 1050 * 100 <? -2.8565) = true)%float
  /\ (forall StringToNumber : string -> exact,
        pl <$> equity StringToNumber journal_example_exact = [ratio 50 1; ratio (-30) 1]
        /\ retPct <$> equity StringToNumber journal_example_exact
           = [ratio 5 1; ratio (-20) 7]).
Proof.
  split; [|split; [reflexivity|split; [reflexivity|split]]].
  - intros num N stn es r Hr.
    destruct (equity_rows stn es r Hr) as (i & e & _ & ->).
    apply equity_row_formulas.
  - intros stn. repeat split.
  - intros stn. split.
    + change [ratio 50 1; ratio (-30) 1]
        with ((fun q => Some (Q2Qc q)) <$> [50 # 1; (-30) # 1])%Q.
      exact_values.
    + change [ratio 5 1; ratio (-20) 7]
        with ((fun q => Some (Q2Qc q)) <$> [5 # 1; (-20) # 7])%Q.
      exact_values.
Qed.

(** The formulas at the first row of the example, from [equity_row_fields]. *)
Lemma equity_row_fields_witness :
  let r := {| index := 1; row_date := "2024-01-01"; start := 1000%float;
              end_ := 1050%float; pl := 50%float; retPct := 5%float |} in
  r ∈ equity no_strings journal_example
  /\ pl r = (end_ r - start r)%js
  /\ ((start r > n0)%js = true -> retPct r = (pl r / start r * n100)%js).
Proof.
  cbv zeta. split; [left|].
  match goal with
  | |- pl ?r = _ /\ _ =>
      destruct (proj1 equity_row_fields float _ no_strings journal_example r)
        as (Hpl & Hpos & _); [left|]
  end.
  split; [exact Hpl | exact Hpos].
Defined.

(** ** The daily rules *)

Section DailyFacts.
Context {num : Type} `{JsNumberLaws num}.
Variable StringToNumber : string -> num.
Local Open Scope js_scope.

(** [Number(m || 0)] compares as [m] does, for a number [m] other than NaN. *)
Lemma threshold_of_number (m a : num) :
  m <> NaN ->
  (a >= Number StringToNumber (or_else (VNumber m) (VNumber n0))) = (a >= m).
Proof.
  intros Hm. unfold or_else. cbn.
  destruct (truthy m) eqn:T; cbn; [reflexivity|].
  symmetry. apply falsy_compares_as_zero; assumption.
Qed.

Lemma positive_not_le_zero (a : num) : (a > n0) = true -> (a <= n0) = false.
Proof. apply lt_excludes_ge. Qed.

Lemma nonnegative_not_lt_zero (a : num) : (a >= n0) = true -> (a < n0) = false.
Proof.
  intros G. destruct (a < n0) eqn:L; [|reflexivity].
  apply lt_excludes_ge in L. congruence.
Qed.

End DailyFacts.

(** C5.  In either arithmetic: with no row both flags are false; with a row
    whose start is <= 0 both are false; otherwise lossExceeded is (pl < 0 ?
    |pl|/start*100 : 0) >= Number(maxDailyLossPercent || 0) and targetHit is
    pl/start*100 >= Number(dailyTargetPercent || 0), and for thresholds that
    are numbers other than NaN these are the comparisons with the
    thresholds themselves.  With pl = -40, start = 1000 and
    maxDailyLossPercent = 3 the loss flag is true. *)
Theorem daily_rules :
  (forall (num : Type) (N : JsNumber num) (StringToNumber : string -> num)
          (maxDailyLossPercent dailyTargetPercent : value num),
      (dailyLossExceeded StringToNumber None maxDailyLossPercent = false
       /\ dailyTargetHit StringToNumber None dailyTargetPercent = false)
      /\ forall r : EquityRow num,
          dailyLossExceeded StringToNumber (Some r) maxDailyLossPercent
          = (if start r <= n0 then false
             else (if pl r < n0 then Math_abs (pl r) / start r * n100 else n0)
                  >= Number StringToNumber (or_else maxDailyLossPercent (VNumber n0)))%js
          /\ dailyTargetHit StringToNumber (Some r) dailyTargetPercent
             = (if start r <= n0 then false
                else pl r / start r * n100
                     >= Number StringToNumber (or_else dailyTargetPercent (VNumber n0)))%js)
  /\ (forall (num : Type) (N : JsNumber num) (L : JsNumberLaws num)
             (StringToNumber : string -> num) (r : EquityRow num)
             (maxDailyLossPercent dailyTargetPercent : num),
        maxDailyLossPercent <> NaN -> dailyTargetPercent <> NaN ->
        (start r <= n0)%js = false ->
        dailyLossExceeded StringToNumber (Some r) (VNumber maxDailyLossPercent)
        = ((if pl r < n0 then Math_abs (pl r) / start r * n100 else n0)
           >= maxDailyLossPercent)%js
        /\ dailyTargetHit StringToNumber (Some r) (VNumber dailyTargetPercent)
           = (pl r / start r * n100 >= dailyTargetPercent)%js)
  /\ (forall StringToNumber : string -> float,
        dailyLossExceeded StringToNumber (Some losing_row) (fnum 3) = true).
Proof.
  split; [|split].
  - intros num N stn ml dt. split; [split; reflexivity|].
    intros r. split; reflexivity.
  - intros num N L stn r ml dt Hml Hdt Hs.
    unfold dailyLossExceeded, dailyTargetHit. rewrite Hs.
    rewrite !threshold_of_number by assumption. split; reflexivity.
  - intros stn. reflexivity.
Qed.

(** The loss flag of the example, from [daily_rules]. *)
Lemma daily_rules_witness :
  dailyLossExceeded no_strings (Some losing_row) (fnum 3) = true.
Proof.
  destruct (proj1 (proj2 daily_rules) float _ _ no_strings losing_row 3%float 1%float)
    as [E _].
  - intros E. apply (f_equal PrimFloat.is_nan) in E. vm_compute in E. discriminate.
  - intros E. apply (f_equal PrimFloat.is_nan) in E. vm_compute in E. discriminate.
  - reflexivity.
  - unfold fnum. rewrite E. reflexivity.
Defined.

(** C6 (amended).  In either arithmetic, for a row with start > 0 and
    pl >= 0 and a threshold that is a number other than NaN, lossExceeded
    is (maxDailyLossPercent <= 0): false for every threshold above 0 and
    true for every threshold at or below 0. *)
Theorem loss_flag_without_loss (num : Type) (N : JsNumber num) (L : JsNumberLaws num)
    (StringToNumber : string -> num) (r : EquityRow num) (maxDailyLossPercent : num) :
  maxDailyLossPercent <> NaN ->
  (start r > n0)%js = true ->
  (pl r >= n0)%js = true ->
  dailyLossExceeded StringToNumber (Some r) (VNumber maxDailyLossPercent)
  = (maxDailyLossPercent <= n0)%js
  /\ ((maxDailyLossPercent > n0)%js = true ->
      dailyLossExceeded StringToNumber (Some r) (VNumber maxDailyLossPercent) = false)
  /\ ((maxDailyLossPercent <= n0)%js = true ->
      dailyLossExceeded StringToNumber (Some r) (VNumber maxDailyLossPercent) = true).
Proof.
  intros Hm Hs Hp.
  assert (dailyLossExceeded StringToNumber (Some r) (VNumber maxDailyLossPercent)
          = (maxDailyLossPercent <= n0)%js) as E.
  { unfold dailyLossExceeded.
    rewrite (positive_not_le_zero _ Hs), (nonnegative_not_lt_zero _ Hp).
    apply threshold_of_number. exact Hm. }
  rewrite E. split; [reflexivity|]. split.
  - apply positive_not_le_zero.
  - intros G. exact G.
Qed.

(** A winning day under a threshold of 3 per cent raises no loss flag. *)
Lemma loss_flag_without_loss_witness :
  dailyLossExceeded no_strings (Some winning_row) (fnum 3) = false.
Proof.
  destruct (loss_flag_without_loss float _ _ no_strings winning_row 3%float)
    as (_ & F & _).
  - intros E. apply (f_equal PrimFloat.is_nan) in E. vm_compute in E. discriminate.
  - reflexivity.
  - reflexivity.
  - unfold fnum. apply F. reflexivity.
Defined.

(** C6, as stated, fails at the threshold 0: a day that gained 50 on 1000
    raises the loss flag. *)
Lemma loss_flag_on_winning_day :
  (start winning_row > n0)%js = true
  /\ (pl winning_row >= n0)%js = true
  /\ dailyLossExceeded no_strings (Some winning_row) (fnum 0) = true
  /\ dailyLossExceeded no_strings (Some winning_row) (fnum (-1)) = true.
Proof. repeat split. Qed.

(** ** The statistics of the month *)

Lemma StronglySorted_filter {A : Type} (R : relation A) (P : A -> bool) (l : list A) :
  StronglySorted R l -> StronglySorted R (List.filter P l).
Proof.
  induction 1 as [|x l Hl IH Hx]; cbn; [constructor|].
  destruct (P x); [|exact IH].
  constructor; [exact IH|].
  rewrite Forall_forall in Hx. apply Forall_forall. intros y Hy.
  apply Hx. apply list_elem_of_In in Hy. apply filter_In in Hy as [Hy _].
  apply list_elem_of_In. exact Hy.
Qed.

(** C7.  In either arithmetic, for every series and year-month: pl is the
    sum of pl over the rows of that month; with no such row (so also on the
    empty series) the result is {pl: 0, retPct: 0}; otherwise retPct is
    pl / start * 100 for the start of the first such row when that start is
    > 0, and 0 when it is not; and in a series sorted by date, as the
    equity series is, the first such row has the earliest date of the
    month. *)
Theorem monthStats_of_series (num : Type) (N : JsNumber num) (L : JsNumberLaws num)
    (ym : string) (series : list (EquityRow num)) :
  month_pl (monthStats ym series) = sum_pl (rows_of_month ym series)
  /\ match rows_of_month ym series with
     | [] => monthStats ym series = {| month_pl := n0; month_retPct := n0 |}
     | first :: rest =>
         month_retPct (monthStats ym series)
         = (if start first > n0
            then sum_pl (rows_of_month ym series) / start first * n100
            else n0)%js
         /\ (sorted_by_date series ->
             Forall (fun r => date_le (row_date first) (row_date r)) rest)
     end.
Proof.
  split; [reflexivity|].
  pose proof (StronglySorted_filter
    (fun a b : EquityRow num => date_le (row_date a) (row_date b))
    (fun r => startsWith (row_date r) ym) series) as Hsorted.
  unfold monthStats, Array_filter, Array_reduce, sum_pl, rows_of_month in *.
  destruct (List.filter _ series) as [|first rest] eqn:E.
  - cbn. rewrite zero_not_positive. reflexivity.
  - split; [reflexivity|].
    intros Hs. specialize (Hsorted Hs). inversion Hsorted; assumption.
Qed.

(** The months of the example, from [monthStats_of_series]: February 2024
    has no row, and the two days of January 2024 sum to 20 on a first
    start of 1000, a return of 2 per cent. *)
Lemma monthStats_of_series_witness :
  monthStats "2024-02" (equity no_strings journal_example)
  = {| month_pl := 0%float; month_retPct := 0%float |}
  /\ month_pl (monthStats "2024-01" (equity no_strings journal_example)) = 20%float
  /\ month_retPct (monthStats "2024-01" (equity no_strings journal_example)) = 2%float.
Proof.
  split; [|split].
  - exact (proj2 (monthStats_of_series float _ _ "2024-02"
                    (equity no_strings journal_example))).
  - rewrite (proj1 (monthStats_of_series float _ _ "2024-01"
                      (equity no_strings journal_example))).
    reflexivity.
  - destruct (proj2 (monthStats_of_series float _ _ "2024-01"
                       (equity no_strings journal_example))) as [E _].
    rewrite E. reflexivity.
Defined.

(** ** The journal *)

Section FindIndexFacts.
Context {A : Type} (P : A -> bool).

Lemma findIndex_Some (l : list A) (i : nat) :
  findIndex P l = Some i <->
  (exists x, l !! i = Some x /\ P x = true)
  /\ (forall j y, j < i -> l !! j = Some y -> P y = false).
Proof.
  revert i. induction l as [|x l IH]; intros i; cbn.
  - split; [discriminate|]. intros [(y & Hy & _) _]. discriminate Hy.
  - destruct (P x) eqn:Px.
    + split.
      * intros [= <-]. split; [exists x; auto|]. intros j y Hj. lia.
      * intros [_ Hfirst]. destruct i as [|i]; [reflexivity|].
        specialize (Hfirst 0 x ltac:(lia) eq_refl). congruence.
    + destruct i as [|i].
      * split.
        -- destruct (findIndex P l); discriminate.
        -- intros [(y & [= <-] & Hy) _]. congruence.
      * assert (S <$> findIndex P l = Some (S i) <-> findIndex P l = Some i) as ->.
        { destruct (findIndex P l); cbn; split; congruence. }
        rewrite IH. cbn. split; intros [Hx Hfirst]; (split; [exact Hx|]).
        -- intros [|j] y Hj Hy; [cbn in Hy; congruence|].
           apply (Hfirst j y); [lia|exact Hy].
        -- intros j y Hj Hy. apply (Hfirst (S j) y); [lia|exact Hy].
Qed.

Lemma findIndex_None (l : list A) :
  findIndex P l = None <-> forall x, x ∈ l -> P x = false.
Proof.
  induction l as [|x l IH]; cbn.
  - split; [|reflexivity]. intros _ y Hy. inversion Hy.
  - destruct (P x) eqn:Px.
    + split; [discriminate|]. intros Hall.
      specialize (Hall x ltac:(left)). congruence.
    + destruct (findIndex P l) as [n|]; cbn.
      * split; [discriminate|]. intros Hall.
        assert (Some n = None) as E; [|discriminate E].
        apply IH. intros y Hy. apply Hall. right. exact Hy.
      * split; [|reflexivity]. intros _ y Hy.
        apply elem_of_cons in Hy as [->|Hy]; [exact Px|].
        apply IH; [reflexivity|exact Hy].
Qed.

Lemma findIndex_insert (l : list A) (i : nat) (p : A) :
  findIndex P l = Some i -> P p = true -> findIndex P (<[i:=p]> l) = Some i.
Proof.
  revert i. induction l as [|x l IH]; intros i; cbn; [discriminate|].
  destruct (P x) eqn:Px.
  - intros [= <-] Hp. cbn. rewrite Hp. reflexivity.
  - destruct (findIndex P l) as [k|] eqn:F; cbn; [|discriminate].
    intros [= <-] Hp. change (<[S k:=p]> (x :: l)) with (x :: <[k:=p]> l).
    cbn [findIndex]. rewrite Px, (IH k eq_refl Hp). reflexivity.
Qed.

Lemma findIndex_snoc (l : list A) (p : A) :
  findIndex P l = None -> P p = true -> findIndex P (l ++ [p]) = Some (length l).
Proof.
  induction l as [|x l IH]; cbn.
  - intros _ ->. reflexivity.
  - destruct (P x); [discriminate|].
    destruct (findIndex P l); cbn; [discriminate|].
    intros _ Hp. rewrite (IH eq_refl Hp). reflexivity.
Qed.

End FindIndexFacts.

Section JournalFacts.
Context {num : Type} `{JsNumber num}.
Variable StringToNumber : string -> num.
Variable trim : string -> string.

Let upsert := addOrUpdateEntry StringToNumber trim.
Let new_entry := payload StringToNumber trim.
Let same_date (form : Form num) (x : JournalEntry num) : bool :=
  String.eqb (date x) (form_date form).

Lemma payload_same_date (form : Form num) : same_date form (new_entry form) = true.
Proof. apply String.eqb_refl. Qed.

Lemma upsert_replaces (es : list (JournalEntry num)) (form : Form num) (i : nat) :
  findIndex (same_date form) es = Some i ->
  upsert es form = <[i := new_entry form]> es.
Proof. unfold upsert, addOrUpdateEntry. fold (same_date form). intros ->. reflexivity. Qed.

Lemma upsert_appends (es : list (JournalEntry num)) (form : Form num) :
  findIndex (same_date form) es = None ->
  upsert es form = es ++ [new_entry form].
Proof. unfold upsert, addOrUpdateEntry. fold (same_date form). intros ->. reflexivity. Qed.

Lemma upsert_twice (es : list (JournalEntry num)) (form : Form num) :
  upsert (upsert es form) form = upsert es form.
Proof.
  destruct (findIndex (same_date form) es) as [i|] eqn:F.
  - rewrite (upsert_replaces es form i F).
    rewrite (upsert_replaces _ form i).
    + apply list_insert_insert_eq.
    + apply findIndex_insert; [exact F|apply payload_same_date].
  - rewrite (upsert_appends es form F).
    rewrite (upsert_replaces _ form (length es)).
    + replace (length es) with (length es + 0) by lia.
      rewrite insert_app_r. reflexivity.
    + apply findIndex_snoc; [exact F|apply payload_same_date].
Qed.

End JournalFacts.

(** C8.  In either arithmetic, for every journal and form: saving the same
    form a second time leaves the journal as the first save left it, in
    length and in contents; when an entry has the date of the form, the
    first such entry is replaced as a whole by the entry built from the
    form, in its place, and the others stay; when no entry has that date,
    the new entry is appended. *)
Theorem addOrUpdateEntry_upsert (num : Type) (N : JsNumber num)
    (StringToNumber : string -> num) (trim : string -> string)
    (entries : list (JournalEntry num)) (form : Form num) :
  let upsert := addOrUpdateEntry StringToNumber trim in
  let new_entry := payload StringToNumber trim form in
  upsert (upsert entries form) form = upsert entries form
  /\ (forall (i : nat) (x : JournalEntry num),
        entries !! i = Some x -> date x = form_date form ->
        (forall j y, j < i -> entries !! j = Some y -> date y <> form_date form) ->
        upsert entries form = <[i := new_entry]> entries
        /\ length (upsert entries form) = length entries
        /\ upsert entries form !! i = Some new_entry
        /\ forall j, j <> i -> upsert entries form !! j = entries !! j)
  /\ ((forall x, x ∈ entries -> date x <> form_date form) ->
      upsert entries form = entries ++ [new_entry]).
Proof.
  cbv zeta. split; [apply upsert_twice|]. split.
  - intros i x Hx Hd Hfirst.
    assert (findIndex (fun y => String.eqb (date y) (form_date form)) entries = Some i) as F.
    { apply findIndex_Some. split.
      - exists x. split; [exact Hx|]. apply String.eqb_eq. exact Hd.
      - intros j y Hj Hy. apply String.eqb_neq. exact (Hfirst j y Hj Hy). }
    rewrite (upsert_replaces StringToNumber trim entries form i F).
    split; [reflexivity|]. split; [apply length_insert|]. split.
    + apply list_lookup_insert_eq. eapply lookup_lt_Some. exact Hx.
    + intros j Hj. apply list_lookup_insert_ne. congruence.
  - intros Hfresh. apply upsert_appends. apply findIndex_None.
    intros x Hx. apply String.eqb_neq. exact (Hfresh x Hx).
Qed.

(** Saving the form of 2024-01-02 over the example replaces its second
    entry; saving the form of 2024-01-03 appends a third. *)
Lemma addOrUpdateEntry_upsert_witness :
  addOrUpdateEntry no_strings already_trimmed journal_example form_example
  = <[1%nat := payload no_strings already_trimmed form_example]> journal_example
  /\ addOrUpdateEntry no_strings already_trimmed journal_example form_new_day
     = journal_example ++ [payload no_strings already_trimmed form_new_day].
Proof.
  split.
  - destruct (addOrUpdateEntry_upsert float _ no_strings already_trimmed
                journal_example form_example) as (_ & R & _).
    destruct (R 1%nat _ eq_refl eq_refl) as (E & _); [|exact E].
    intros j y Hj Hy. destruct j as [|j]; [|lia].
    injection Hy as <-. discriminate.
  - destruct (addOrUpdateEntry_upsert float _ no_strings already_trimmed
                journal_example form_new_day) as (_ & _ & A).
    apply A. intros x Hx. repeat (apply elem_of_cons in Hx as [->|Hx]; [discriminate|]).
    inversion Hx.
Defined.

(** ** The exported text *)

Lemma append_empty (s : string) : EmptyString +:+ s = s.
Proof. reflexivity. Qed.

Lemma append_String (c : ascii) (a b : string) : String c a +:+ b = String c (a +:+ b).
Proof. reflexivity. Qed.

Section SplitFacts.
Variable sep : ascii.

Lemma split_on_plain (s : string) :
  includes sep s = false -> split_on sep s = [s].
Proof.
  induction s as [|c s IH]; cbn; [reflexivity|].
  destruct (Ascii.eqb c sep); cbn; [discriminate|].
  intros Hs. rewrite (IH Hs). reflexivity.
Qed.

Lemma split_on_app (x rest : string) :
  includes sep x = false ->
  split_on sep (x +:+ String sep rest) = x :: split_on sep rest.
Proof.
  induction x as [|c x IH]; [rewrite append_empty|rewrite append_String]; cbn.
  - intros _. rewrite Ascii.eqb_refl. reflexivity.
  - destruct (Ascii.eqb c sep); cbn; [discriminate|].
    intros Hx. rewrite (IH Hx). reflexivity.
Qed.

Lemma split_on_join (xs : list string) :
  xs <> [] ->
  Forall (fun x => includes sep x = false) xs ->
  split_on sep (join (String sep EmptyString) xs) = xs.
Proof.
  intros Hne Hxs. induction Hxs as [|x xs Hx Hxs IH]; [congruence|].
  destruct xs as [|y ys].
  - cbn. apply split_on_plain. exact Hx.
  - change (join (String sep EmptyString) (x :: y :: ys))
      with (x +:+ String sep (join (String sep EmptyString) (y :: ys))).
    rewrite (split_on_app _ _ Hx), IH by discriminate. reflexivity.
Qed.

End SplitFacts.

Lemma includes_app (c : ascii) (a b : string) :
  includes c (a +:+ b) = (includes c a || includes c b)%bool.
Proof.
  induction a as [|c' a IH]; [reflexivity|].
  rewrite append_String. cbn. rewrite IH. apply orb_assoc.
Qed.

Lemma includes_join (c sep : ascii) (xs : list string) :
  Ascii.eqb sep c = false ->
  Forall (fun x => includes c x = false) xs ->
  includes c (join (String sep EmptyString) xs) = false.
Proof.
  intros Hsep Hxs. induction Hxs as [|x xs Hx Hxs IH]; [reflexivity|].
  destruct xs as [|y ys]; [exact Hx|].
  change (join (String sep EmptyString) (x :: y :: ys))
    with (x +:+ String sep (join (String sep EmptyString) (y :: ys))).
  rewrite includes_app, Hx. cbn [includes orb]. rewrite Hsep. exact IH.
Qed.

Lemma replace_commas_no_comma (s : string) : includes comma (replace_commas s) = false.
Proof.
  induction s as [|c s IH]; cbn; [reflexivity|].
  rewrite IH. destruct (Ascii.eqb c ","%char) eqn:E; cbn; [reflexivity|].
  unfold comma. rewrite E. reflexivity.
Qed.

Lemma replace_commas_line_feed (s : string) :
  includes line_feed (replace_commas s) = includes line_feed s.
Proof.
  induction s as [|c s IH]; cbn; [reflexivity|].
  rewrite IH. destruct (Ascii.eqb c ","%char) eqn:E; [|reflexivity].
  apply Ascii.eqb_eq in E. subst c. reflexivity.
Qed.

Section CsvFacts.
Context {num : Type} `{JsNumber num}.
Variable StringToNumber : string -> num.
Variable NumberToString : num -> string.

Lemma plain_field_spec (s : string) :
  plain_field s = true <-> includes comma s = false /\ includes line_feed s = false.
Proof.
  unfold plain_field. rewrite andb_true_iff, !negb_true_iff. reflexivity.
Qed.

Lemma row_prints_plain_spec (r : EquityRow num) :
  row_prints_plain NumberToString r = true ->
  forall c, c = comma \/ c = line_feed ->
  Forall (fun x => includes c x = false)
    [row_date r; NumberToString (start r); NumberToString (end_ r);
     NumberToString (pl r); NumberToString (retPct r)].
Proof.
  unfold row_prints_plain. rewrite !andb_true_iff, !plain_field_spec.
  intros ((((Hd & Hs) & He) & Hp) & Hr) c [-> | ->];
    repeat constructor; tauto.
Qed.

Lemma csv_notes_single_line (es : list (JournalEntry num)) (r : EquityRow num) :
  forallb (fun e => single_line (notes e)) es = true ->
  includes line_feed (csv_notes es r) = false.
Proof.
  intros Hes. unfold csv_notes, Array_find. rewrite replace_commas_line_feed.
  destruct (List.find _ es) as [e|] eqn:F; [|reflexivity].
  apply find_some in F as [He _].
  rewrite forallb_forall in Hes. specialize (Hes e He).
  apply negb_true_iff in Hes. exact Hes.
Qed.

Lemma csv_row_fields (es : list (JournalEntry num)) (r : EquityRow num) :
  row_prints_plain NumberToString r = true ->
  csv_fields (csv_row NumberToString es r)
  = [row_date r; NumberToString (start r); NumberToString (end_ r);
     NumberToString (pl r); NumberToString (retPct r); csv_notes es r].
Proof.
  intros Hr. unfold csv_fields, csv_row.
  apply (split_on_join comma); [discriminate|].
  pose proof (row_prints_plain_spec r Hr comma (or_introl eq_refl)) as F.
  rewrite !Forall_cons in F. rewrite !Forall_cons.
  repeat split; try tauto. apply replace_commas_no_comma.
Qed.

Lemma csv_row_single_line (es : list (JournalEntry num)) (r : EquityRow num) :
  row_prints_plain NumberToString r = true ->
  forallb (fun e => single_line (notes e)) es = true ->
  includes line_feed (csv_row NumberToString es r) = false.
Proof.
  intros Hr Hes. unfold csv_row. apply includes_join; [reflexivity|].
  pose proof (row_prints_plain_spec r Hr line_feed (or_intror eq_refl)) as F.
  rewrite !Forall_cons in F. rewrite !Forall_cons.
  repeat split; try tauto. apply csv_notes_single_line. exact Hes.
Qed.

End CsvFacts.

(** C9 (amended).  In either arithmetic, when the date and the printed
    numbers of every row hold no comma and no line feed and no entry's
    notes hold a line feed: the lines of the exported text are the header
    date,startBalance,endBalance,pl,retPct,notes followed by exactly one
    line per row of the equity series, in its order; the header and every
    such line split at the commas into exactly 6 fields, the date, the four
    printed numbers and the notes; and the notes field is the notes with
    every comma replaced by a semicolon, so it holds no comma. *)
Theorem csv_shape (num : Type) (N : JsNumber num)
    (StringToNumber : string -> num) (NumberToString : num -> string)
    (entries : list (JournalEntry num)) :
  forallb (row_prints_plain NumberToString) (equity StringToNumber entries) = true ->
  forallb (fun e => single_line (notes e)) entries = true ->
  csv_lines (csv StringToNumber NumberToString entries)
  = csv_header :: map (csv_row NumberToString entries) (equity StringToNumber entries)
  /\ length (csv_lines (csv StringToNumber NumberToString entries)) = S (length entries)
  /\ csv_fields csv_header
     = ["date"; "startBalance"; "endBalance"; "pl"; "retPct"; "notes"]
  /\ forall r : EquityRow num, r ∈ equity StringToNumber entries ->
       csv_fields (csv_row NumberToString entries r)
       = [row_date r; NumberToString (start r); NumberToString (end_ r);
          NumberToString (pl r); NumberToString (retPct r); csv_notes entries r]
       /\ length (csv_fields (csv_row NumberToString entries r)) = 6
       /\ includes comma (csv_notes entries r) = false.
Proof.
  intros Hrows Hnotes. rewrite forallb_forall in Hrows.
  assert (csv_lines (csv StringToNumber NumberToString entries)
          = csv_header :: map (csv_row NumberToString entries)
                              (equity StringToNumber entries)) as Hlines.
  { unfold csv_lines, csv. apply (split_on_join line_feed); [discriminate|].
    constructor; [reflexivity|].
    apply Forall_forall. intros line Hline.
    apply list_elem_of_In, in_map_iff in Hline as (r & <- & Hr).
    apply csv_row_single_line; [apply Hrows; exact Hr|exact Hnotes]. }
  split; [exact Hlines|]. split.
  { rewrite Hlines. cbn. rewrite length_map.
    rewrite equity_length. reflexivity. }
  split; [reflexivity|].
  intros r Hr. apply list_elem_of_In in Hr.
  rewrite (csv_row_fields NumberToString entries r (Hrows r Hr)).
  split; [reflexivity|]. split; [reflexivity|].
  apply replace_commas_no_comma.
Qed.

(** One day with the note [a,b], from [csv_shape]: a header and one line,
    the comma of the note now a semicolon. *)
Lemma csv_shape_witness :
  csv_lines (csv no_strings print_float (one_day "a,b"))
  = ["date,startBalance,endBalance,pl,retPct,notes"; "2024-01-01,1000,1050,50,5,a;b"]
  /\ length (csv_lines (csv no_strings print_float (one_day "a,b"))) = 2.
Proof.
  destruct (csv_shape float _ no_strings print_float (one_day "a,b"))
    as (E & L & _); [vm_compute; reflexivity | vm_compute; reflexivity |].
  split; [rewrite E; vm_compute; reflexivity | exact L].
Defined.

(** C9, as stated, fails on notes that hold a line feed: the one row of the
    day takes two lines of the text, and the second has a single field. *)
Lemma csv_note_with_line_feed :
  length (equity no_strings (one_day two_line_note)) = 1
  /\ csv_lines (csv no_strings print_float (one_day two_line_note))
     = ["date,startBalance,endBalance,pl,retPct,notes"; "2024-01-01,1000,1050,50,5,a"; "b"]
  /\ length (csv_lines (csv no_strings print_float (one_day two_line_note))) = 3.
Proof. vm_compute. repeat split. Qed.

(** * More of the component *)

(** ** Saving and removing entries *)

Section JournalOps.
Context {num : Type} `{JsNumber num}.
Variable StringToNumber : string -> num.
Variable trim : string -> string.

Let upsert := addOrUpdateEntry StringToNumber trim.
Let new_entry := payload StringToNumber trim.

(** [addOrUpdateEntry] walks the journal up to the first entry of the date. *)
Lemma upsert_nil (form : Form num) : upsert [] form = [new_entry form].
Proof. reflexivity. Qed.

Lemma upsert_cons (x : JournalEntry num) (es : list (JournalEntry num)) (form : Form num) :
  upsert (x :: es) form
  = if String.eqb (date x) (form_date form) then new_entry form :: es
    else x :: upsert es form.
Proof.
  unfold upsert, addOrUpdateEntry. cbn [findIndex].
  destruct (String.eqb (date x) (form_date form)); [reflexivity|].
  destruct (findIndex _ es); reflexivity.
Qed.

Lemma removeEntry_cons (d : string) (x : JournalEntry num) (es : list (JournalEntry num)) :
  removeEntry d (x :: es)
  = if String.eqb (date x) d then removeEntry d es else x :: removeEntry d es.
Proof.
  unfold removeEntry, Array_filter. cbn [List.filter].
  destruct (String.eqb (date x) d); reflexivity.
Qed.

Lemma removeEntry_elem (d : string) (es : list (JournalEntry num)) (x : JournalEntry num) :
  x ∈ removeEntry d es <-> x ∈ es /\ date x <> d.
Proof.
  unfold removeEntry, Array_filter. rewrite !list_elem_of_In, filter_In.
  rewrite negb_true_iff, String.eqb_neq. reflexivity.
Qed.

Lemma removeEntry_absent (d : string) (es : list (JournalEntry num)) :
  (forall x, x ∈ es -> date x <> d) -> removeEntry d es = es.
Proof.
  induction es as [|x es IH]; intros Hd; [reflexivity|].
  rewrite removeEntry_cons.
  destruct (String.eqb_spec (date x) d) as [E|_].
  - destruct (Hd x ltac:(left) E).
  - f_equal. apply IH. intros y Hy. apply Hd. right. exact Hy.
Qed.

Lemma removeEntry_sublist (d : string) (es : list (JournalEntry num)) :
  removeEntry d es `sublist_of` es.
Proof.
  induction es as [|x es IH]; [constructor|].
  rewrite removeEntry_cons. destruct (String.eqb (date x) d); constructor; exact IH.
Qed.

Lemma entry_of_date_None (d : string) (es : list (JournalEntry num)) :
  entry_of_date d es = None <-> forall x, x ∈ es -> date x <> d.
Proof.
  unfold entry_of_date, Array_find. split.
  - intros F x Hx. apply list_elem_of_In in Hx.
    apply String.eqb_neq. exact (find_none _ _ F x Hx).
  - intros Hd. induction es as [|x es IH]; [reflexivity|]. cbn.
    destruct (String.eqb_spec (date x) d) as [E|_].
    + destruct (Hd x ltac:(left) E).
    + apply IH. intros y Hy. apply Hd. right. exact Hy.
Qed.

Lemma entry_of_date_Some (d : string) (es : list (JournalEntry num)) (e : JournalEntry num) :
  entry_of_date d es = Some e -> e ∈ es /\ date e = d.
Proof.
  unfold entry_of_date, Array_find. intros F. apply find_some in F as [He Hd].
  split; [apply list_elem_of_In; exact He | apply String.eqb_eq; exact Hd].
Qed.

Lemma upsert_lookup (es : list (JournalEntry num)) (form : Form num) :
  entry_of_date (form_date form) (upsert es form) = Some (new_entry form).
Proof.
  unfold entry_of_date, Array_find.
  induction es as [|x es IH].
  - rewrite upsert_nil. cbn. rewrite String.eqb_refl. reflexivity.
  - rewrite upsert_cons. destruct (String.eqb (date x) (form_date form)) eqn:E; cbn.
    + rewrite String.eqb_refl. reflexivity.
    + rewrite E. exact IH.
Qed.

Lemma upsert_lookup_other (es : list (JournalEntry num)) (form : Form num) (d : string) :
  d <> form_date form ->
  entry_of_date d (upsert es form) = entry_of_date d es.
Proof.
  intros Hd. unfold entry_of_date, Array_find.
  assert (String.eqb (date (new_entry form)) d = false) as Hnew.
  { apply String.eqb_neq. cbn. congruence. }
  induction es as [|x es IH].
  - rewrite upsert_nil. cbn. cbn in Hnew. rewrite Hnew. reflexivity.
  - rewrite upsert_cons. destruct (String.eqb_spec (date x) (form_date form)) as [E|_]; cbn.
    + cbn in Hnew. rewrite Hnew.
      assert (String.eqb (date x) d = false) as ->; [|reflexivity].
      apply String.eqb_neq. congruence.
    + destruct (String.eqb (date x) d); [reflexivity|exact IH].
Qed.

Lemma upsert_length (es : list (JournalEntry num)) (form : Form num) :
  length (upsert es form)
  = match entry_of_date (form_date form) es with
    | Some _ => length es
    | None => S (length es)
    end.
Proof.
  unfold entry_of_date, Array_find.
  induction es as [|x es IH]; [reflexivity|].
  rewrite upsert_cons. cbn [List.find].
  destruct (String.eqb (date x) (form_date form)); [reflexivity|].
  cbn [length]. rewrite IH. destruct (List.find _ es); reflexivity.
Qed.

Lemma remove_upsert (es : list (JournalEntry num)) (form : Form num) :
  removeEntry (form_date form) (upsert es form) = removeEntry (form_date form) es.
Proof.
  induction es as [|x es IH].
  - rewrite upsert_nil, removeEntry_cons. cbn. rewrite String.eqb_refl. reflexivity.
  - rewrite upsert_cons, (removeEntry_cons _ x es).
    destruct (String.eqb (date x) (form_date form)) eqn:E.
    + rewrite removeEntry_cons. cbn. rewrite String.eqb_refl. reflexivity.
    + rewrite removeEntry_cons, E, IH. reflexivity.
Qed.

Lemma upsert_fresh (es : list (JournalEntry num)) (form : Form num) :
  (forall x, x ∈ es -> date x <> form_date form) ->
  upsert es form = es ++ [new_entry form].
Proof.
  induction es as [|x es IH]; intros Hd; [reflexivity|].
  rewrite upsert_cons.
  destruct (String.eqb_spec (date x) (form_date form)) as [E|_].
  - destruct (Hd x ltac:(left) E).
  - cbn. f_equal. apply IH. intros y Hy. apply Hd. right. exact Hy.
Qed.

Lemma upsert_dates (es : list (JournalEntry num)) (form : Form num) :
  date <$> upsert es form
  = if decide (form_date form ∈ date <$> es) then date <$> es
    else (date <$> es) ++ [form_date form].
Proof.
  induction es as [|x es IH].
  - rewrite upsert_nil. cbn. destruct (decide _) as [E|_]; [inversion E|reflexivity].
  - rewrite upsert_cons. destruct (String.eqb_spec (date x) (form_date form)) as [E|E].
    + rewrite decide_True by (rewrite <- E; left). cbn. rewrite E. reflexivity.
    + cbn [fmap list_fmap]. change (list_fmap _ _ date) with (fmap (M:=list) date).
      rewrite IH. destruct (decide (form_date form ∈ date <$> es)) as [I|I].
      * rewrite decide_True by (right; exact I). reflexivity.
      * rewrite decide_False; [reflexivity|].
        intros I'. apply elem_of_cons in I' as [I'|I']; [congruence|contradiction].
Qed.

Lemma upsert_unique (es : list (JournalEntry num)) (form : Form num) :
  unique_dates es -> unique_dates (upsert es form).
Proof.
  unfold unique_dates. rewrite upsert_dates. intros Hes.
  destruct (decide _) as [I|I]; [exact Hes|].
  apply NoDup_app. split; [exact Hes|]. split; [|apply NoDup_singleton].
  intros y Hy Hy'. apply list_elem_of_singleton in Hy'. subst y. contradiction.
Qed.

Lemma removeEntry_unique (d : string) (es : list (JournalEntry num)) :
  unique_dates es -> unique_dates (removeEntry d es).
Proof.
  unfold unique_dates. intros Hes.
  eapply sublist_NoDup; [exact Hes|].
  apply fmap_sublist, removeEntry_sublist.
Qed.

Lemma step_unique (es : list (JournalEntry num)) (a : action num) :
  unique_dates es -> unique_dates (step StringToNumber trim es a).
Proof.
  destruct a as [form|d]; cbn; [apply upsert_unique|apply removeEntry_unique].
Qed.

End JournalOps.

(** X1.  [removeEntry] deletes every entry of the date and nothing else:
    what remains are the entries of other dates, in their order; removing
    twice is removing once; and the journal is unchanged exactly when no
    entry has the date. *)
Theorem removeEntry_deletes (num : Type) (d : string) (entries : list (JournalEntry num)) :
  (forall x, x ∈ removeEntry d entries <-> x ∈ entries /\ date x <> d)
  /\ removeEntry d entries `sublist_of` entries
  /\ removeEntry d (removeEntry d entries) = removeEntry d entries
  /\ (removeEntry d entries = entries <-> forall x, x ∈ entries -> date x <> d).
Proof.
  split; [apply removeEntry_elem|]. split; [apply removeEntry_sublist|]. split.
  - apply removeEntry_absent. intros x Hx. apply removeEntry_elem in Hx. tauto.
  - split; [|apply removeEntry_absent].
    intros E x Hx. rewrite <- E in Hx. apply removeEntry_elem in Hx. tauto.
Qed.

(** X2.  Saving and removing keep the dates of the journal unique: from a
    journal in which each date occurs once, every run of form submissions
    and removals ends in such a journal. *)
Theorem unique_dates_kept (num : Type) (N : JsNumber num)
    (StringToNumber : string -> num) (trim : string -> string)
    (entries : list (JournalEntry num)) (actions : list (action num)) :
  unique_dates entries ->
  unique_dates (run StringToNumber trim entries actions).
Proof.
  unfold run. revert entries.
  induction actions as [|a actions IH]; intros es Hes; [exact Hes|].
  cbn [fold_left]. apply IH, step_unique, Hes.
Qed.

(** The example journal stays one entry per date through a replacement, a
    removal and an addition. *)
Lemma unique_dates_kept_witness :
  unique_dates
    (run no_strings already_trimmed journal_example
       [Save form_example; Remove "2024-01-01"; Save form_new_day]).
Proof.
  apply (unique_dates_kept float _ no_strings already_trimmed journal_example).
  unfold unique_dates. cbn. repeat constructor; rewrite ?elem_of_cons; 
    try (intros [E|E]; [discriminate E|inversion E]); intros E; inversion E.
Defined.

(** X3.  After the form is saved, the first entry of its date is the entry
    built from the form; the first entry of any other date is as before;
    and the journal is one longer exactly when it had no entry of the
    form's date. *)
Theorem save_then_find (num : Type) (N : JsNumber num)
    (StringToNumber : string -> num) (trim : string -> string)
    (entries : list (JournalEntry num)) (form : Form num) :
  let saved := addOrUpdateEntry StringToNumber trim entries form in
  entry_of_date (form_date form) saved = Some (payload StringToNumber trim form)
  /\ (forall d, d <> form_date form -> entry_of_date d saved = entry_of_date d entries)
  /\ length saved
     = match entry_of_date (form_date form) entries with
       | Some _ => length entries
       | None => S (length entries)
       end.
Proof.
  cbv zeta. split; [apply upsert_lookup|]. split; [|apply upsert_length].
  intros d Hd. apply upsert_lookup_other. exact Hd.
Qed.

(** X4.  Removing the date of a form just saved gives the journal with that
    date removed; saving after removing the date puts the new entry at the
    end; and on a journal without the date, saving and then removing
    restores the journal. *)
Theorem save_and_remove (num : Type) (N : JsNumber num)
    (StringToNumber : string -> num) (trim : string -> string)
    (entries : list (JournalEntry num)) (form : Form num) :
  let upsert := addOrUpdateEntry StringToNumber trim in
  let d := form_date form in
  removeEntry d (upsert entries form) = removeEntry d entries
  /\ upsert (removeEntry d entries) form
     = removeEntry d entries ++ [payload StringToNumber trim form]
  /\ (entry_of_date d entries = None -> removeEntry d (upsert entries form) = entries).
Proof.
  cbv zeta. split; [apply remove_upsert|]. split.
  - apply upsert_fresh. intros x Hx. apply removeEntry_elem in Hx. tauto.
  - intros F. rewrite remove_upsert. apply removeEntry_absent.
    apply entry_of_date_None. exact F.
Qed.

(** ** The equity series and its entries *)

Lemma NoDup_fmap_eq {A B : Type} (f : A -> B) (l : list A) (x y : A) :
  NoDup (f <$> l) -> x ∈ l -> y ∈ l -> f x = f y -> x = y.
Proof.
  induction l as [|z l IH]; intros Hl Hx Hy E; [inversion Hx|].
  cbn in Hl. apply NoDup_cons in Hl as [Hz Hl].
  apply elem_of_cons in Hx as [->|Hx]; apply elem_of_cons in Hy as [->|Hy].
  - reflexivity.
  - destruct Hz. rewrite E. apply list_elem_of_fmap_2. exact Hy.
  - destruct Hz. rewrite <- E. apply list_elem_of_fmap_2. exact Hx.
  - apply IH; assumption.
Qed.

Lemma date_le_antisym (a b : string) : date_le a b -> date_le b a -> a = b.
Proof.
  rewrite !date_le_cases. intros [Hab|E] [Hba|E']; try congruence.
  destruct (OrderedTypeEx.String_as_OT.lt_not_eq a a); [|reflexivity].
  exact (OrderedTypeEx.String_as_OT.lt_trans _ _ _ Hab Hba).
Qed.

Lemma date_le_refl (a : string) : date_le a a.
Proof. apply date_le_cases. right. reflexivity. Qed.

Lemma find_head_filter {A : Type} (P : A -> bool) (l : list A) :
  List.find P l = head (List.filter P l).
Proof.
  induction l as [|x l IH]; [reflexivity|]. cbn.
  destruct (P x); [reflexivity|exact IH].
Qed.

(** Looking for [P] among the images of a list under an indexed map, when
    the image of [x] has [Q] exactly when [x] has [P]. *)
Lemma find_imap {A B : Type} (P : A -> bool) (Q : B -> bool) (f : nat -> A -> B)
    (l : list A) :
  (forall i x, Q (f i x) = P x) ->
  match List.find P l with
  | Some x => exists i, List.find Q (imap f l) = Some (f i x)
  | None => List.find Q (imap f l) = None
  end.
Proof.
  revert f. induction l as [|x l IH]; intros f Hf; [reflexivity|].
  cbn. rewrite Hf. destruct (P x).
  - exists 0. reflexivity.
  - specialize (IH (f ∘ S) (fun i y => Hf (S i) y)).
    destruct (List.find P l) as [y|]; [|exact IH].
    destruct IH as [i Hi]. exists (S i). exact Hi.
Qed.

Section EquityEntries.
Context {num : Type} `{JsNumber num}.
Variable StringToNumber : string -> num.

Lemma equity_row_data (i : nat) (e : JournalEntry num) :
  row_data (equity_row StringToNumber i e) = entry_data StringToNumber e.
Proof. reflexivity. Qed.

Lemma equity_data (es : list (JournalEntry num)) :
  row_data <$> equity StringToNumber es = entry_data StringToNumber <$> sorted_entries es.
Proof.
  unfold equity. fold (sorted_entries es). rewrite fmap_imap.
  rewrite (imap_ext _ (const (entry_data StringToNumber))) by reflexivity.
  apply imap_const.
Qed.

Lemma sorted_entries_perm (es : list (JournalEntry num)) : sorted_entries es ≡ₚ es.
Proof. apply Array_sort_perm. Qed.

Lemma sorted_entries_of_perm (es es' : list (JournalEntry num)) :
  es ≡ₚ es' -> unique_dates es -> sorted_entries es = sorted_entries es'.
Proof.
  intros Hp Hu.
  apply (StronglySorted_unique_strong (fun a b => date_le (date a) (date b))).
  - intros x y Hx Hy Hxy Hyx.
    rewrite sorted_entries_perm in Hx. rewrite sorted_entries_perm, <- Hp in Hy.
    apply (NoDup_fmap_eq date es); [exact Hu|exact Hx|exact Hy|].
    apply date_le_antisym; assumption.
  - apply sorted_entries_sorted.
  - apply sorted_entries_sorted.
  - rewrite !sorted_entries_perm. exact Hp.
Qed.

Lemma sorted_entries_find (d : string) (es : list (JournalEntry num)) :
  entry_of_date d (sorted_entries es) = entry_of_date d es.
Proof.
  unfold entry_of_date, Array_find.
  rewrite !find_head_filter, sorted_entries_stable. reflexivity.
Qed.

(** The first row of a date is the row of the journal's first entry of that
    date. *)
Lemma equity_find (d : string) (es : list (JournalEntry num)) :
  match entry_of_date d es with
  | Some e =>
      exists i, Array_find (fun r => String.eqb (row_date r) d) (equity StringToNumber es)
                = Some (equity_row StringToNumber i e)
  | None =>
      Array_find (fun r => String.eqb (row_date r) d) (equity StringToNumber es) = None
  end.
Proof.
  rewrite <- sorted_entries_find. unfold entry_of_date, Array_find, equity.
  fold (sorted_entries es).
  apply (find_imap (fun e => String.eqb (date e) d)). reflexivity.
Qed.

Lemma equity_row_elem (es : list (JournalEntry num)) (r : EquityRow num) :
  r ∈ equity StringToNumber es -> row_date r ∈ date <$> es.
Proof.
  intros Hr. rewrite <- (sorted_entries_perm es), <- (equity_dates StringToNumber).
  apply list_elem_of_fmap_2. exact Hr.
Qed.

End EquityEntries.

Section BalanceFacts.
Context {num : Type} `{JsNumber num}.
Variable StringToNumber : string -> num.

Lemma accountBalance_last_entry (es : list (JournalEntry num)) :
  accountBalance (equity StringToNumber es)
  = match last (sorted_entries es) with
    | Some e => Number StringToNumber (or_else (endBalance e) (VNumber n0))
    | None => n0
    end.
Proof.
  unfold accountBalance.
  assert (snd <$> last (row_data <$> equity StringToNumber es)
          = snd <$> last (entry_data StringToNumber <$> sorted_entries es)) as E
    by (rewrite equity_data; reflexivity).
  rewrite !fmap_last in E.
  destruct (last (equity StringToNumber es)) as [r|], (last (sorted_entries es)) as [e|];
    cbn in E; congruence.
Qed.

Lemma sorted_entries_last (es : list (JournalEntry num)) (e : JournalEntry num) :
  last (sorted_entries es) = Some e ->
  e ∈ es /\ forall x, x ∈ es -> date_le (date x) (date e).
Proof.
  intros L. pose proof (sorted_entries_sorted es) as S.
  pose proof (sorted_entries_perm es) as P.
  apply last_Some in L as [l' L]. rewrite L in S, P. split.
  - rewrite <- P. apply elem_of_app. right. left.
  - intros x Hx. rewrite <- P in Hx. apply elem_of_app in Hx as [Hx|Hx].
    + apply (StronglySorted_app_1_elem_of _ _ _ _ _ S Hx). left.
    + apply list_elem_of_singleton in Hx. subst x. apply date_le_refl.
Qed.

End BalanceFacts.

(** X5.  The equity series has exactly the days of the journal: the dates
    and the start and end balances of its rows are, up to order, the dates
    and the coerced balances of the entries, so every entry has its row
    and every row comes from an entry. *)
Theorem equity_of_entries (num : Type) (N : JsNumber num)
    (StringToNumber : string -> num) (entries : list (JournalEntry num)) :
  row_data <$> equity StringToNumber entries ≡ₚ entry_data StringToNumber <$> entries
  /\ (forall e, e ∈ entries ->
        exists r, r ∈ equity StringToNumber entries
                  /\ row_data r = entry_data StringToNumber e)
  /\ (forall r, r ∈ equity StringToNumber entries ->
        exists e, e ∈ entries /\ row_data r = entry_data StringToNumber e).
Proof.
  assert (row_data <$> equity StringToNumber entries
          ≡ₚ entry_data StringToNumber <$> entries) as P.
  { rewrite equity_data. apply fmap_Permutation, sorted_entries_perm. }
  split; [exact P|]. split.
  - intros e He. apply (list_elem_of_fmap_2 (entry_data StringToNumber)) in He.
    rewrite <- P in He. apply list_elem_of_fmap in He as (r & E & Hr).
    exists r. split; [exact Hr|congruence].
  - intros r Hr. apply (list_elem_of_fmap_2 row_data) in Hr.
    rewrite P in Hr. apply list_elem_of_fmap in Hr as (e & E & He).
    exists e. split; [exact He|exact E].
Qed.

(** X6.  When each date occurs once, the equity series does not depend on
    the order of the entries in the journal. *)
Theorem equity_order_independent (num : Type) (N : JsNumber num)
    (StringToNumber : string -> num) (entries entries' : list (JournalEntry num)) :
  entries ≡ₚ entries' ->
  unique_dates entries ->
  equity StringToNumber entries = equity StringToNumber entries'.
Proof.
  intros Hp Hu. unfold equity.
  change (Array_sort _ entries) with (sorted_entries entries).
  change (Array_sort _ entries') with (sorted_entries entries').
  rewrite (sorted_entries_of_perm entries entries' Hp Hu). reflexivity.
Qed.

(** The example journal and its reverse have the same series. *)
Lemma equity_order_independent_witness :
  equity no_strings journal_example = equity no_strings journal_reversed.
Proof.
  apply (equity_order_independent float _ no_strings journal_example journal_reversed).
  - apply Permutation_swap.
  - unfold unique_dates. cbn. repeat constructor; rewrite ?elem_of_cons;
      try (intros [E|E]; [discriminate E|inversion E]); intros E; inversion E.
Defined.

(** X7.  The row of the day of the form is the row of the journal's first
    entry of that date, with its date and coerced balances; there is none
    exactly when the journal has no entry of that date. *)
Theorem dailyRow_of_entries (num : Type) (N : JsNumber num)
    (StringToNumber : string -> num) (entries : list (JournalEntry num))
    (form : Form num) :
  match entry_of_date (form_date form) entries with
  | Some e =>
      exists r, dailyRow (equity StringToNumber entries) form = Some r
                /\ r ∈ equity StringToNumber entries
                /\ row_data r = entry_data StringToNumber e
  | None => dailyRow (equity StringToNumber entries) form = None
  end.
Proof.
  pose proof (equity_find StringToNumber (form_date form) entries) as F.
  unfold dailyRow. destruct (entry_of_date (form_date form) entries) as [e|]; [|exact F].
  destruct F as [i F]. eexists. split; [exact F|]. split; [|reflexivity].
  apply find_some in F as [F _]. apply list_elem_of_In. exact F.
Qed.

(** X8.  Once the form is saved, the row of its day exists and shows what
    was saved: the date of the form and the balances of the entry built
    from it. *)
Theorem dailyRow_after_save (num : Type) (N : JsNumber num)
    (StringToNumber : string -> num) (trim : string -> string)
    (entries : list (JournalEntry num)) (form : Form num) :
  exists r,
    dailyRow (equity StringToNumber (addOrUpdateEntry StringToNumber trim entries form)) form
    = Some r
    /\ row_data r = entry_data StringToNumber (payload StringToNumber trim form).
Proof.
  pose proof (equity_find StringToNumber (form_date form)
                (addOrUpdateEntry StringToNumber trim entries form)) as F.
  rewrite upsert_lookup in F. destruct F as [i F].
  eexists. split; [exact F|reflexivity].
Qed.

(** X9.  The account balance is 0 on an empty journal and otherwise the
    coerced end balance of an entry whose date no entry's date exceeds. *)
Theorem accountBalance_latest (num : Type) (N : JsNumber num)
    (StringToNumber : string -> num) (entries : list (JournalEntry num)) :
  match entries with
  | [] => accountBalance (equity StringToNumber entries) = n0
  | _ :: _ =>
      exists e, e ∈ entries
        /\ (forall x, x ∈ entries -> date_le (date x) (date e))
        /\ accountBalance (equity StringToNumber entries)
           = Number StringToNumber (or_else (endBalance e) (VNumber n0))
  end.
Proof.
  destruct entries as [|x es]; [reflexivity|].
  rewrite accountBalance_last_entry.
  destruct (last (sorted_entries (x :: es))) as [e|] eqn:L.
  - destruct (sorted_entries_last _ _ L) as [He Hmax].
    exists e. split; [exact He|]. split; [exact Hmax|reflexivity].
  - apply last_None in L. apply (f_equal length) in L.
    rewrite (Permutation_length (sorted_entries_perm (x :: es))) in L. discriminate L.
Qed.

(** ** The notes in the exported text *)

Lemma replace_commas_length (s : string) :
  String.length (replace_commas s) = String.length s.
Proof. induction s as [|c s IH]; cbn; [reflexivity|]. rewrite IH. reflexivity. Qed.

Lemma replace_commas_plain (s : string) :
  includes comma s = false -> replace_commas s = s.
Proof.
  induction s as [|c s IH]; cbn; [reflexivity|].
  unfold comma at 1. destruct (Ascii.eqb c ","%char); cbn; [discriminate|].
  intros Hs. rewrite (IH Hs). reflexivity.
Qed.

(** X10.  In the exported text the notes of a row are always the notes of
    an entry of the journal, the first of the row's date (the empty default
    of a missing entry is never used), with the same number of characters,
    and unchanged when they hold no comma. *)
Theorem csv_notes_of_day (num : Type) (N : JsNumber num)
    (StringToNumber : string -> num) (entries : list (JournalEntry num))
    (r : EquityRow num) :
  r ∈ equity StringToNumber entries ->
  exists e, entry_of_date (row_date r) entries = Some e
    /\ e ∈ entries /\ date e = row_date r
    /\ csv_notes entries r = replace_commas (notes e)
    /\ String.length (csv_notes entries r) = String.length (notes e)
    /\ (includes comma (notes e) = false -> csv_notes entries r = notes e).
Proof.
  intros Hr. apply equity_row_elem in Hr.
  destruct (entry_of_date (row_date r) entries) as [e|] eqn:F.
  - destruct (entry_of_date_Some _ _ _ F) as [He Hd].
    assert (csv_notes entries r = replace_commas (notes e)) as E.
    { unfold csv_notes. unfold entry_of_date in F. rewrite F. reflexivity. }
    exists e. split; [reflexivity|]. split; [exact He|]. split; [exact Hd|].
    split; [exact E|]. rewrite E. split; [apply replace_commas_length|].
    apply replace_commas_plain.
  - apply list_elem_of_fmap in Hr as (e & Hd & He).
    rewrite entry_of_date_None in F. destruct (F e He). symmetry. exact Hd.
Qed.

(** The row of 2024-01-01 in a journal of two months carries the note of
    that day, its comma replaced. *)
Lemma csv_notes_of_day_witness :
  exists r, r ∈ equity no_strings journal_two_months
    /\ row_date r = "2024-01-01"
    /\ csv_notes journal_two_months r = "a;b".
Proof.
  eexists. split; [left|]. split; [reflexivity|].
  match goal with
  | |- csv_notes _ ?r = _ =>
      destruct (csv_notes_of_day float _ no_strings journal_two_months r)
        as (e & F & _ & _ & E & _); [left|]
  end.
  injection F as <-. exact E.
Defined.

(** ** The daily flags on rows of the series *)

(** X11.  For a row of the equity series with start > 0, the target flag is
    the comparison of the row's own retPct with the coerced threshold. *)
Theorem targetHit_is_retPct (num : Type) (N : JsNumber num) (L : JsNumberLaws num)
    (StringToNumber : string -> num) (entries : list (JournalEntry num))
    (r : EquityRow num) (dailyTargetPercent : value num) :
  r ∈ equity StringToNumber entries ->
  (start r > n0)%js = true ->
  dailyTargetHit StringToNumber (Some r) dailyTargetPercent
  = (retPct r >= Number StringToNumber (or_else dailyTargetPercent (VNumber n0)))%js.
Proof.
  intros Hr Hs.
  destruct (equity_rows StringToNumber entries r Hr) as (i & e & _ & ->).
  destruct (equity_row_formulas StringToNumber i e) as (_ & Hpos & _).
  cbv zeta in Hpos. rewrite (Hpos Hs).
  unfold dailyTargetHit. rewrite (positive_not_le_zero _ Hs). reflexivity.
Qed.

(** The first day of the example gained 5 per cent: the target of 1 per
    cent is hit. *)
Lemma targetHit_is_retPct_witness :
  exists r, r ∈ equity no_strings journal_example
    /\ retPct r = 5%float
    /\ dailyTargetHit no_strings (Some r) (fnum 1) = true.
Proof.
  eexists. split; [left|]. split; [reflexivity|].
  match goal with
  | |- dailyTargetHit _ (Some ?r) _ = _ =>
      rewrite (targetHit_is_retPct float _ _ no_strings journal_example r (fnum 1))
  end; [reflexivity|left|reflexivity].
Defined.

(** ** The daily flags in exact arithmetic *)

Lemma Qc_zero_is (z : Z) : z = 0%Z -> Q2Qc (inject_Z z) = 0%Qc.
Proof. intros ->. apply Qc_is_canon. reflexivity. Qed.

Lemma Qc_hundred_pos : (0 < Q2Qc (inject_Z 100))%Qc.
Proof. reflexivity. Qed.

Lemma Qc_neg_ratio (p s : Qc) :
  (p < 0)%Qc -> (0 < s)%Qc -> (p / s * Q2Qc (inject_Z 100) < 0)%Qc.
Proof.
  intros Hp Hs.
  assert (p / s < 0)%Qc as Hq.
  { unfold Qcdiv. rewrite <- (Qcmult_0_l (/ s)).
    apply Qcmult_lt_mono_pos_r; [apply Qcinv_pos; exact Hs|exact Hp]. }
  rewrite <- (Qcmult_0_l (Q2Qc (inject_Z 100))).
  apply Qcmult_lt_mono_pos_r; [exact Qc_hundred_pos|exact Hq].
Qed.

Section ExactFlags.
Variable StringToNumber : string -> exact.

Lemma exact_threshold (x : Qc) :
  (0 < x)%Qc ->
  Number StringToNumber (or_else (@VNumber exact (Some x)) (VNumber n0)) = Some x.
Proof.
  intros Hx. unfold or_else. cbn.
  rewrite bool_decide_eq_true_2; [reflexivity|].
  intros E. rewrite E in Hx. exact (Qclt_not_eq _ _ Hx eq_refl).
Qed.

Lemma loss_flag_needs_loss (r : EquityRow exact) (m : Qc) :
  (0 < m)%Qc ->
  dailyLossExceeded StringToNumber (Some r) (@VNumber exact (Some m)) = true ->
  exists p, pl r = Some p /\ (p < 0)%Qc.
Proof.
  intros Hm. unfold dailyLossExceeded. rewrite (exact_threshold m Hm).
  destruct (start r <= n0)%js; [discriminate|].
  destruct (pl r) as [p|]; cbn.
  - case_bool_decide as Hp.
    + intros _. exists p. split; [reflexivity|exact Hp].
    + intros G. apply bool_decide_eq_true in G. destruct (Qclt_not_le _ _ Hm G).
  - intros G. apply bool_decide_eq_true in G. destruct (Qclt_not_le _ _ Hm G).
Qed.

Lemma target_flag_needs_no_loss (r : EquityRow exact) (t p : Qc) :
  (0 < t)%Qc -> pl r = Some p -> (p < 0)%Qc ->
  dailyTargetHit StringToNumber (Some r) (@VNumber exact (Some t)) = false.
Proof.
  intros Ht Hpl Hp. unfold dailyTargetHit. rewrite (exact_threshold t Ht), Hpl.
  destruct (start r) as [s|]; cbn; [|reflexivity].
  case_bool_decide as Hs; [reflexivity|].
  apply Qcnot_le_lt in Hs.
  match goal with
  | |- context [decide (?a = ?b)] => destruct (decide (a = b)) as [E|_]
  end; [reflexivity|].
  cbn. apply bool_decide_eq_false. intros G.
  apply (Qclt_not_le _ _ Ht). apply (Qcle_trans _ _ _ G).
  apply Qclt_le_weak, Qc_neg_ratio; assumption.
Qed.

End ExactFlags.

(** X12.  In exact arithmetic, with both thresholds above 0, no row raises
    the loss flag and the target flag together. *)
Theorem flags_exclude_each_other (StringToNumber : string -> exact)
    (r : EquityRow exact) (maxLoss target : Qc) :
  (0 < maxLoss)%Qc -> (0 < target)%Qc ->
  (dailyLossExceeded StringToNumber (Some r) (@VNumber exact (Some maxLoss))
   && dailyTargetHit StringToNumber (Some r) (@VNumber exact (Some target)))%bool = false.
Proof.
  intros Hm Ht.
  destruct (dailyLossExceeded _ _ _) eqn:Hl; [|reflexivity].
  destruct (loss_flag_needs_loss StringToNumber r maxLoss Hm Hl) as (p & Hpl & Hp).
  cbn. exact (target_flag_needs_no_loss StringToNumber r target p Ht Hpl Hp).
Qed.

(** A losing day of 4 per cent raises the loss flag and not the target
    flag. *)
Lemma flags_exclude_each_other_witness :
  (dailyLossExceeded no_strings (Some losing_row_exact) (@VNumber exact (ratio 3 1))
   && dailyTargetHit no_strings (Some losing_row_exact) (@VNumber exact (ratio 1 1)))%bool
  = false
  /\ dailyLossExceeded no_strings (Some losing_row_exact) (@VNumber exact (ratio 3 1)) = true.
Proof.
  split; [|reflexivity].
  apply (flags_exclude_each_other no_strings losing_row_exact (Q2Qc (3 # 1)) (Q2Qc (1 # 1)));
    reflexivity.
Defined.

(** ** The balance of the position calculator *)

#[export] Instance float_zero : JsNumberZero float.
Proof. split. reflexivity. Qed.

#[export] Instance exact_zero : JsNumberZero exact.
Proof. split. reflexivity. Qed.

Section CalculatorFacts.
Context {num : Type} `{JsNumberZero num}.
Variable StringToNumber : string -> num.

Lemma calcPosition_no_balance (i : PositionInput num) :
  truthy (Number StringToNumber (balance i)) = false ->
  calcPosition StringToNumber i = None.
Proof.
  intros Hb. unfold calcPosition. cbv zeta. rewrite Hb.
  destruct (truthy (Number StringToNumber (entry i))),
    (truthy (Number StringToNumber (stop i))); reflexivity.
Qed.

Lemma positionCalc_override (ps : SizingForm num) (settings : Settings num) (acc : num) :
  ToBoolean (balanceOverride ps) = true ->
  positionCalc StringToNumber ps settings acc
  = calcPosition StringToNumber
      {| entry := ps_entry ps; stop := ps_stop ps; balance := balanceOverride ps;
         riskPercent := settings_riskPercent settings;
         feePercent := settings_feePercent settings;
         leverage := settings_leverage settings |}.
Proof.
  intros Ho. unfold positionCalc, or_else. rewrite Ho. cbv iota. rewrite Ho.
  unfold calcPosition. reflexivity.
Qed.

Lemma calcPosition_riskValue (i : PositionInput num) (p : PositionPlan num) :
  calcPosition StringToNumber i = Some p ->
  riskValue p
  = num_mul (Number StringToNumber (balance i))
      (num_div (Number StringToNumber (riskPercent i)) n100).
Proof.
  intros Hp.
  destruct (calcPosition_some StringToNumber i p Hp) as (_ & _ & _ & _ & _ & ->).
  reflexivity.
Qed.

Lemma positionCalc_no_balance (ps : SizingForm num) (settings : Settings num) (acc : num) :
  ToBoolean (balanceOverride ps) = false -> truthy acc = false ->
  positionCalc StringToNumber ps settings acc = None.
Proof.
  intros Ho Ha. unfold positionCalc. apply calcPosition_no_balance.
  unfold or_else. rewrite Ho. cbn. rewrite Ha. cbn. apply zero_falsy.
Qed.

Lemma positionCalc_account (ps : SizingForm num) (settings : Settings num) (acc : num) :
  ToBoolean (balanceOverride ps) = false -> truthy acc = true ->
  positionCalc StringToNumber ps settings acc
  = calcPosition StringToNumber
      {| entry := ps_entry ps; stop := ps_stop ps; balance := VNumber acc;
         riskPercent := settings_riskPercent settings;
         feePercent := settings_feePercent settings;
         leverage := settings_leverage settings |}.
Proof.
  intros Ho Ha. unfold positionCalc, or_else. rewrite Ho. cbn. rewrite Ha. reflexivity.
Qed.

End CalculatorFacts.

(** X13.  With a truthy override the calculator is [calcPosition] on the
    override as balance, whatever the account balance, and the risk value
    of its plan is Number(balanceOverride) * (riskPercent/100); with a
    falsy override and a truthy account balance it is [calcPosition] on
    the account balance, and the risk value is accountBalance *
    (riskPercent/100); and with a falsy override and an account balance of
    0 or NaN, as on an empty journal, it shows no plan. *)
Theorem positionCalc_balance (num : Type) (N : JsNumber num) (Z : JsNumberZero num)
    (StringToNumber : string -> num) (ps : SizingForm num) (settings : Settings num)
    (acc : num) :
  (ToBoolean (balanceOverride ps) = true ->
   positionCalc StringToNumber ps settings acc
   = calcPosition StringToNumber
       {| entry := ps_entry ps; stop := ps_stop ps; balance := balanceOverride ps;
          riskPercent := settings_riskPercent settings;
          feePercent := settings_feePercent settings;
          leverage := settings_leverage settings |}
   /\ (forall acc', positionCalc StringToNumber ps settings acc
                    = positionCalc StringToNumber ps settings acc')
   /\ (forall p, positionCalc StringToNumber ps settings acc = Some p ->
         riskValue p
         = (Number StringToNumber (balanceOverride ps)
            * (Number StringToNumber (settings_riskPercent settings) / n100))%js))
  /\ (ToBoolean (balanceOverride ps) = false -> truthy acc = true ->
      positionCalc StringToNumber ps settings acc
      = calcPosition StringToNumber
          {| entry := ps_entry ps; stop := ps_stop ps; balance := VNumber acc;
             riskPercent := settings_riskPercent settings;
             feePercent := settings_feePercent settings;
             leverage := settings_leverage settings |}
      /\ (forall p, positionCalc StringToNumber ps settings acc = Some p ->
            riskValue p
            = (acc * (Number StringToNumber (settings_riskPercent settings) / n100))%js))
  /\ (ToBoolean (balanceOverride ps) = false -> truthy acc = false ->
      positionCalc StringToNumber ps settings acc = None)
  /\ (ToBoolean (balanceOverride ps) = false ->
      positionCalc StringToNumber ps settings (accountBalance (equity StringToNumber []))
      = None).
Proof.
  split; [|split; [|split]].
  - intros Ho. split; [apply positionCalc_override; exact Ho|]. split.
    + intros acc'. rewrite !positionCalc_override by exact Ho. reflexivity.
    + intros p. rewrite positionCalc_override by exact Ho.
      apply calcPosition_riskValue.
  - intros Ho Ha. split; [apply positionCalc_account; assumption|].
    intros p. rewrite positionCalc_account by assumption.
    apply calcPosition_riskValue.
  - apply positionCalc_no_balance.
  - intros Ho. apply positionCalc_no_balance; [exact Ho|]. apply zero_falsy.
Qed.

(** On the example journal, whose account balance is 1020: with an override
    of 10000 the plan risks 1 per cent of 10000, with the override field
    empty 1 per cent of 1020; and with the field empty on an empty journal
    there is no plan. *)
Lemma positionCalc_balance_witness :
  (exists p, positionCalc no_strings ps_override settings_example
               (accountBalance (equity no_strings journal_example)) = Some p
     /\ riskValue p = (10000 * (1 / 100))%float /\ riskValue p = 100%float)
  /\ (exists p, positionCalc no_strings ps_example settings_example
                  (accountBalance (equity no_strings journal_example)) = Some p
        /\ riskValue p = (1020 * (1 / 100))%float)
  /\ positionCalc no_strings ps_example settings_example
       (accountBalance (equity no_strings [])) = None.
Proof.
  destruct (positionCalc_balance float _ _ no_strings ps_override settings_example
              (accountBalance (equity no_strings journal_example)))
    as (O & _).
  destruct (positionCalc_balance float _ _ no_strings ps_example settings_example
              (accountBalance (equity no_strings journal_example)))
    as (_ & A & _ & E).
  split; [|split].
  - destruct (O eq_refl) as (_ & _ & R).
    eexists. split; [vm_compute; reflexivity|].
    split; [apply R; vm_compute; reflexivity | reflexivity].
  - destruct (A eq_refl eq_refl) as (_ & R).
    eexists. split; [vm_compute; reflexivity|].
    apply R. vm_compute. reflexivity.
  - apply E. reflexivity.
Defined.

(** ** Position sizing in exact arithmetic *)

Section SizingGuards.
Context {num : Type} `{JsNumber num}.
Variable StringToNumber : string -> num.
Local Open Scope js_scope.

Lemma calcPosition_none_iff (i : PositionInput num) :
  let e := Number StringToNumber (entry i) in
  let s := Number StringToNumber (stop i) in
  let bal := Number StringToNumber (balance i) in
  let rPct := Number StringToNumber (riskPercent i) / n100 in
  calcPosition StringToNumber i = None <->
  truthy e = false \/ truthy s = false \/ truthy bal = false \/
  truthy rPct = false \/ (Math_abs (e - s) <= n0) = true.
Proof.
  intros e s bal rPct. unfold calcPosition. cbv zeta. fold e s bal rPct.
  destruct (truthy e), (truthy s), (truthy bal), (truthy rPct); cbn [negb orb];
    try (split; [intros _; auto 6 | reflexivity]).
  destruct (Math_abs (e - s) <= n0).
  - split; [intros _; auto 6 | reflexivity].
  - split; [discriminate|]. intros [E|[E|[E|[E|E]]]]; discriminate E.
Qed.

End SizingGuards.

Lemma Qc_abs_nonpos (x : Qc) :
  ((if decide (x < 0)%Qc then - x else x) <= 0)%Qc <-> x = 0%Qc.
Proof.
  destruct (decide (x < 0)%Qc) as [L|L]; split.
  - intros G. exfalso. apply (Qclt_not_le _ _ L).
    apply Qcopp_le_compat in G. rewrite Qcopp_involutive in G. exact G.
  - intros ->. destruct (Qclt_not_eq _ _ L eq_refl).
  - intros G. apply Qcle_antisym; [exact G|apply Qcnot_lt_le; exact L].
  - intros ->. apply Qcle_refl.
Qed.

Lemma Qc_minus_zero (a b : Qc) : (a - b)%Qc = 0%Qc <-> a = b.
Proof.
  split.
  - intros E. replace a with (a - b + b)%Qc by ring. rewrite E. ring.
  - intros ->. ring.
Qed.

(** In exact arithmetic the stop distance is <= 0 exactly when entry and
    stop are the same number. *)
Lemma exact_same_stop (e s : exact) :
  truthy e = true -> truthy s = true ->
  (Math_abs (e - s) <= n0)%js = true <-> e = s.
Proof.
  destruct e as [a|], s as [b|]; cbn; try discriminate. intros _ _.
  rewrite bool_decide_eq_true. 
  change (Q2Qc (inject_Z 0)) with 0%Qc.
  rewrite Qc_abs_nonpos, Qc_minus_zero. split; congruence.
Qed.

(** X14.  In exact arithmetic [calcPosition] returns null exactly when
    entry, stop, balance or riskPercent coerces to 0 or NaN, or entry and
    stop coerce to the same number. *)
Theorem calcPosition_null_exact (StringToNumber : string -> exact)
    (i : PositionInput exact) :
  let e := Number StringToNumber (entry i) in
  let s := Number StringToNumber (stop i) in
  calcPosition StringToNumber i = None <->
  truthy e = false \/ truthy s = false
  \/ truthy (Number StringToNumber (balance i)) = false
  \/ truthy (Number StringToNumber (riskPercent i)) = false
  \/ e = s.
Proof.
  intros e s. rewrite calcPosition_none_iff. fold e s.
  rewrite exact_hundredth_truthy.
  destruct (truthy e) eqn:He; [|tauto].
  destruct (truthy s) eqn:Hs; [|tauto].
  rewrite (exact_same_stop e s He Hs). tauto.
Qed.

(** The numbers of a plan in exact arithmetic: the guards leave four
    numbers, a non-zero entry and a non-zero stop distance. *)
Lemma exact_plan (StringToNumber : string -> exact) (i : PositionInput exact)
    (p : PositionPlan exact) :
  calcPosition StringToNumber i = Some p ->
  exists e d rv : Qc,
    e <> 0%Qc /\ d <> 0%Qc
    /\ plan_entry p = Some e /\ stopDist p = Some d /\ riskValue p = Some rv
    /\ positionUSDT p = Some (rv / (d / e))%Qc
    /\ units p = Some (rv / (d / e) / e)%Qc
    /\ notional p = Some (rv / (d / e))%Qc
    /\ marginRequired p
       = exact_div (Some (rv / (d / e))%Qc)
           (Math_max n1 (Number StringToNumber (or_else (leverage i) (VNumber n1)))).
Proof.
  intros Hp.
  destruct (calcPosition_some StringToNumber i p Hp) as (He & Hs & Hb & Hr & Hd & ->).
  cbn [plan_entry stopDist riskValue positionUSDT units notional marginRequired].
  rewrite exact_hundredth_truthy in Hr.
  revert He Hs Hb Hr Hd.
  generalize (Math_max n1 (Number StringToNumber (or_else (leverage i) (VNumber n1)))).
  generalize (Number StringToNumber (entry i)) (Number StringToNumber (stop i))
    (Number StringToNumber (balance i)) (Number StringToNumber (riskPercent i)).
  intros [e|] [s|] [b|] [r|] lev; cbn; try discriminate.
  intros He _ _ _ Hd.
  apply bool_decide_eq_true in He. apply bool_decide_eq_false in Hd.
  set (d := if decide (e - s < 0)%Qc then (- (e - s))%Qc else (e - s)%Qc) in *.
  assert (d <> 0%Qc) as Hd0.
  { intros E. apply Hd. rewrite E. apply Qcle_refl. }
  exists e, d, (b * (r / Q2Qc (inject_Z 100)))%Qc.
  repeat nonzero_divisor.
  repeat split; try assumption; try reflexivity.
Qed.

Lemma Qc_one_nonzero : 1%Qc <> 0%Qc.
Proof. discriminate. Qed.

Lemma Qc_above_one_nonzero (l : Qc) : (1 < l)%Qc -> l <> 0%Qc.
Proof. intros L E. rewrite E in L. discriminate L. Qed.

(** X15.  In exact arithmetic the margin of a plan times the clamped
    leverage is its notional; with a leverage of at most 1, or a leverage
    that is missing, empty or 0, the margin is the notional itself. *)
Theorem margin_and_leverage (StringToNumber : string -> exact)
    (i : PositionInput exact) (p : PositionPlan exact) :
  calcPosition StringToNumber i = Some p ->
  (ToBoolean (leverage i) = false -> marginRequired p = notional p)
  /\ forall l : Qc,
       Number StringToNumber (or_else (leverage i) (VNumber n1)) = Some l ->
       (marginRequired p * Math_max n1 (Some l))%js = notional p
       /\ ((l <= 1)%Qc -> marginRequired p = notional p).
Proof.
  intros Hp.
  destruct (exact_plan StringToNumber i p Hp)
    as (e & d & rv & He & Hd & _ & _ & _ & _ & _ & Hn & Hm).
  assert (forall l : Qc,
            Number StringToNumber (or_else (leverage i) (VNumber n1)) = Some l ->
            (marginRequired p * Math_max n1 (Some l))%js = notional p
            /\ ((l <= 1)%Qc -> marginRequired p = notional p)) as Hl.
  { intros l El. rewrite Hm, Hn, El. cbn -[exact_div].
    change (Q2Qc (inject_Z 1)) with 1%Qc.
    destruct (decide (1 < l)%Qc) as [L|L].
    - pose proof (Qc_above_one_nonzero l L) as Hl0.
      rewrite exact_div_some by exact Hl0. split.
      + cbn. f_equal. field. repeat split; assumption.
      + intros G. destruct (Qclt_not_le _ _ L G).
    - rewrite exact_div_some by exact Qc_one_nonzero. split.
      + cbn. f_equal. field. repeat split; first [assumption | exact Qc_one_nonzero].
      + intros _. f_equal. field. repeat split; first [assumption | exact Qc_one_nonzero]. }
  split; [|exact Hl].
  intros Hf. apply (Hl 1%Qc); [|apply Qcle_refl].
  unfold or_else. rewrite Hf. reflexivity.
Qed.

(** Without a leverage setting the margin of the example is its notional,
    2000. *)
Lemma margin_and_leverage_witness :
  exists p, calcPosition no_strings sizing_no_leverage = Some p
    /\ marginRequired p = notional p /\ notional p = ratio 2000 1.
Proof.
  eexists. split; [reflexivity|]. split.
  - apply (margin_and_leverage no_strings sizing_no_leverage); reflexivity.
  - exact_value.
Defined.

(** X16.  In exact arithmetic the notional of a plan is its units at the
    entry price, and the notional is to the entry as the risk value is to
    the stop distance: notional * stopDist = riskValue * entry. *)
Theorem notional_of_plan (StringToNumber : string -> exact)
    (i : PositionInput exact) (p : PositionPlan exact) :
  calcPosition StringToNumber i = Some p ->
  (units p * plan_entry p)%js = notional p
  /\ (notional p * stopDist p)%js = (riskValue p * plan_entry p)%js.
Proof.
  intros Hp.
  destruct (exact_plan StringToNumber i p Hp)
    as (e & d & rv & He & Hd & -> & -> & -> & _ & -> & -> & _).
  split; cbn; f_equal; field; split; assumption.
Qed.

(** The example: 20 units at 100 are a notional of 2000, and 2000 * 5 =
    100 * 100. *)
Lemma notional_of_plan_witness :
  exists p, calcPosition no_strings sizing_example_exact = Some p
    /\ (units p * plan_entry p)%js = notional p
    /\ (notional p * stopDist p)%js = (riskValue p * plan_entry p)%js.
Proof.
  eexists. split; [reflexivity|].
  apply (notional_of_plan no_strings sizing_example_exact). reflexivity.
Defined.

(** ** The month and the rest of the journal *)

Section SortFilter.
Context {A : Type} (cmp : A -> A -> comparison) (P : A -> bool).

Let before (x y : A) : Prop := cmp x y <> Gt.

Hypothesis cmp_trans : forall x y z, before x y -> before y z -> before x z.

Lemma sort_insert_first (x : A) (l : list A) :
  Forall (before x) l -> sort_insert cmp x l = x :: l.
Proof.
  destruct 1 as [|y l Hy _]; [reflexivity|]. cbn.
  destruct (cmp x y) eqn:E; try reflexivity. destruct (Hy E).
Qed.

Lemma filter_sort_insert (x : A) (l : list A) :
  StronglySorted before l ->
  List.filter P (sort_insert cmp x l)
  = if P x then sort_insert cmp x (List.filter P l) else List.filter P l.
Proof.
  induction 1 as [|y l Hl IH Hy]; cbn [sort_insert].
  - cbn. destruct (P x); reflexivity.
  - assert (cmp x y <> Gt ->
            List.filter P (x :: y :: l)
            = if P x then sort_insert cmp x (List.filter P (y :: l))
              else List.filter P (y :: l)) as Hfirst.
    { intros Hxy.
      change (List.filter P (x :: y :: l))
        with (if P x then x :: List.filter P (y :: l) else List.filter P (y :: l)).
      destruct (P x); [|reflexivity].
      symmetry. apply sort_insert_first.
      assert (Forall (before x) (y :: l)) as F.
      { constructor; [exact Hxy|].
        eapply Forall_impl; [exact Hy|]. intros z Hz.
        exact (cmp_trans x y z Hxy Hz). }
      apply Forall_forall. intros z Hz. rewrite Forall_forall in F. apply F.
      apply list_elem_of_In in Hz. apply filter_In in Hz as [Hz _].
      apply list_elem_of_In. exact Hz. }
    destruct (cmp x y) eqn:E.
    + apply Hfirst. discriminate.
    + apply Hfirst. discriminate.
    + cbn [List.filter]. rewrite IH.
      destruct (P y), (P x); try reflexivity.
      cbn [sort_insert]. rewrite E. reflexivity.
Qed.

Hypothesis cmp_total : forall x y, cmp x y = Gt -> before y x.

Lemma filter_Array_sort (l : list A) :
  List.filter P (Array_sort cmp l) = Array_sort cmp (List.filter P l).
Proof.
  induction l as [|x l IH]; [reflexivity|].
  cbn [Array_sort List.filter].
  rewrite filter_sort_insert by (apply Array_sort_sorted; assumption).
  rewrite IH. destruct (P x); reflexivity.
Qed.

End SortFilter.

Lemma filter_filter_same {A : Type} (P : A -> bool) (l : list A) :
  List.filter P (List.filter P l) = List.filter P l.
Proof.
  induction l as [|x l IH]; [reflexivity|]. cbn.
  destruct (P x) eqn:E; [|exact IH]. cbn. rewrite E, IH. reflexivity.
Qed.

Section MonthFacts.
Context {num : Type} `{JsNumber num}.
Variable StringToNumber : string -> num.

(** Two rows that agree on what [monthStats] reads. *)
Let alike (r r' : EquityRow num) : Prop :=
  row_date r = row_date r' /\ start r = start r' /\ pl r = pl r'.

Lemma monthStats_alike (ym : string) (rows rows' : list (EquityRow num)) :
  Forall2 alike rows rows' -> monthStats ym rows = monthStats ym rows'.
Proof.
  intros F.
  assert (Forall2 alike (Array_filter (fun r => startsWith (row_date r) ym) rows)
                        (Array_filter (fun r => startsWith (row_date r) ym) rows')) as G.
  { unfold Array_filter. induction F as [|r r' l l' Hrr F IH]; [constructor|].
    cbn. rewrite <- (proj1 Hrr). destruct (startsWith (row_date r) ym); [|exact IH].
    constructor; [exact Hrr|exact IH]. }
  unfold monthStats. revert G.
  generalize (Array_filter (fun r => startsWith (row_date r) ym) rows)
             (Array_filter (fun r => startsWith (row_date r) ym) rows').
  intros l l' G.
  assert (forall a, Array_reduce (fun s r => num_add s (pl r)) a l
                    = Array_reduce (fun s r => num_add s (pl r)) a l') as ->.
  { unfold Array_reduce. induction G as [|r r' l l' (_ & _ & Hp) G IH]; [reflexivity|].
    intros a. cbn. rewrite Hp. apply IH. }
  destruct G as [|r r' l l' (_ & Hs & _) G]; [reflexivity|].
  rewrite Hs. reflexivity.
Qed.

Lemma monthStats_of_its_rows (ym : string) (rows : list (EquityRow num)) :
  monthStats ym rows = monthStats ym (rows_of_month ym rows).
Proof.
  unfold monthStats, rows_of_month, Array_filter.
  rewrite filter_filter_same. reflexivity.
Qed.

Lemma rows_of_month_imap (ym : string) (f g : nat -> JournalEntry num -> EquityRow num)
    (l : list (JournalEntry num)) :
  (forall i j e, alike (f i e) (g j e)) ->
  (forall i e, row_date (f i e) = date e) ->
  Forall2 alike (rows_of_month ym (imap f l)) (imap g (entries_of_month ym l)).
Proof.
  revert f g. induction l as [|e l IH]; intros f g Hfg Hf; [constructor|].
  unfold rows_of_month, entries_of_month in *. cbn. rewrite Hf.
  destruct (startsWith (date e) ym).
  - cbn. constructor; [apply Hfg|].
    apply IH; [intros i j x; apply Hfg | intros i x; apply Hf].
  - apply IH; [intros i j x; apply Hfg | intros i x; apply Hf].
Qed.

End MonthFacts.

(** X17.  The statistics of a month depend only on the entries of that
    month: the entries of other months can be left out of the journal
    without changing them. *)
Theorem monthStats_of_its_entries (num : Type) (N : JsNumber num)
    (StringToNumber : string -> num) (ym : string)
    (entries : list (JournalEntry num)) :
  monthStats ym (equity StringToNumber entries)
  = monthStats ym (equity StringToNumber (entries_of_month ym entries)).
Proof.
  rewrite monthStats_of_its_rows. apply monthStats_alike.
  unfold equity at 2. unfold entries_of_month.
  rewrite <- (filter_Array_sort (fun a b => localeCompare (date a) (date b))).
  - apply rows_of_month_imap; [|reflexivity].
    intros i j e. repeat split.
  - intros x y z. apply date_le_trans.
  - intros x y. apply date_le_total.
Qed.

(** ** Removing and saving a day, seen in the series *)

Section SeriesAfter.
Context {num : Type} `{JsNumber num}.
Variable StringToNumber : string -> num.
Variable trim : string -> string.

Lemma sorted_entries_removeEntry (d : string) (es : list (JournalEntry num)) :
  sorted_entries (removeEntry d es) = removeEntry d (sorted_entries es).
Proof.
  unfold sorted_entries, removeEntry, Array_filter. symmetry.
  apply filter_Array_sort.
  - intros x y z. apply date_le_trans.
  - intros x y. apply date_le_total.
Qed.

Lemma entry_data_filter (d : string) (l : list (JournalEntry num)) :
  entry_data StringToNumber <$> removeEntry d l
  = List.filter (fun t => negb (String.eqb t.1.1 d)) (entry_data StringToNumber <$> l).
Proof.
  unfold removeEntry, Array_filter.
  induction l as [|e l IH]; [reflexivity|]. cbn.
  destruct (String.eqb (date e) d); cbn; rewrite <- IH; reflexivity.
Qed.

Lemma entry_of_date_removed (d : string) (es : list (JournalEntry num)) :
  entry_of_date d (removeEntry d es) = None.
Proof.
  apply entry_of_date_None. intros x Hx. apply removeEntry_elem in Hx. exact (proj2 Hx).
Qed.

Lemma upsert_has_payload (es : list (JournalEntry num)) (form : Form num) :
  payload StringToNumber trim form ∈ addOrUpdateEntry StringToNumber trim es form.
Proof.
  pose proof (upsert_lookup StringToNumber trim es form) as F.
  apply entry_of_date_Some in F. exact (proj1 F).
Qed.

Lemma upsert_elem (es : list (JournalEntry num)) (form : Form num) (x : JournalEntry num) :
  x ∈ addOrUpdateEntry StringToNumber trim es form ->
  x = payload StringToNumber trim form \/ x ∈ es.
Proof.
  induction es as [|y es IH].
  - rewrite upsert_nil. intros Hx. apply list_elem_of_singleton in Hx. left. exact Hx.
  - rewrite upsert_cons. destruct (String.eqb (date y) (form_date form)).
    + intros Hx. apply elem_of_cons in Hx as [->|Hx]; [left; reflexivity|].
      right. right. exact Hx.
    + intros Hx. apply elem_of_cons in Hx as [->|Hx]; [right; left|].
      destruct (IH Hx) as [E|E]; [left; exact E|right; right; exact E].
Qed.

End SeriesAfter.

(** X18.  Removing a date from the journal removes exactly the rows of that
    date from the series: the dates and balances of the remaining rows are
    those of the series before, in the same order, and the row of the day
    of a form of that date is gone. *)
Theorem equity_after_remove (num : Type) (N : JsNumber num)
    (StringToNumber : string -> num) (d : string) (entries : list (JournalEntry num)) :
  row_data <$> equity StringToNumber (removeEntry d entries)
  = List.filter (fun t => negb (String.eqb t.1.1 d))
      (row_data <$> equity StringToNumber entries)
  /\ forall form : Form num, form_date form = d ->
       dailyRow (equity StringToNumber (removeEntry d entries)) form = None.
Proof.
  split.
  - rewrite (equity_data StringToNumber (removeEntry d entries)).
    rewrite (equity_data StringToNumber entries), sorted_entries_removeEntry.
    apply entry_data_filter.
  - intros form <-.
    pose proof (equity_find StringToNumber (form_date form)
                  (removeEntry (form_date form) entries)) as F.
    rewrite entry_of_date_removed in F. exact F.
Qed.

(** X19.  When each date occurs once and no entry is dated after the form,
    saving the form makes its end balance the account balance. *)
Theorem accountBalance_after_save (num : Type) (N : JsNumber num)
    (StringToNumber : string -> num) (trim : string -> string)
    (entries : list (JournalEntry num)) (form : Form num) :
  unique_dates entries ->
  (forall x, x ∈ entries -> date_le (date x) (form_date form)) ->
  accountBalance (equity StringToNumber (addOrUpdateEntry StringToNumber trim entries form))
  = Number StringToNumber
      (or_else (endBalance (payload StringToNumber trim form)) (VNumber n0)).
Proof.
  intros Hu Hle.
  set (saved := addOrUpdateEntry StringToNumber trim entries form).
  set (p := payload StringToNumber trim form).
  rewrite accountBalance_last_entry.
  destruct (last (sorted_entries saved)) as [e|] eqn:L.
  - destruct (sorted_entries_last _ _ L) as [He Hmax].
    assert (e = p) as ->; [|reflexivity].
    pose proof (upsert_has_payload StringToNumber trim entries form) as Hp.
    apply (NoDup_fmap_eq date saved); [|exact He|exact Hp|].
    + apply upsert_unique. exact Hu.
    + apply date_le_antisym; [|apply (Hmax p Hp)].
      destruct (upsert_elem StringToNumber trim entries form e He) as [->|Hin].
      * apply date_le_refl.
      * apply (Hle e Hin).
  - apply last_None in L. apply (f_equal length) in L.
    rewrite (Permutation_length (sorted_entries_perm saved)) in L.
    pose proof (upsert_has_payload StringToNumber trim entries form) as Hp.
    fold saved in Hp. destruct saved; [inversion Hp|discriminate L].
Qed.

(** Saving 2024-01-03 with an end balance of 1010 on the example journal
    makes 1010 the account balance. *)
Lemma accountBalance_after_save_witness :
  accountBalance
    (equity no_strings (addOrUpdateEntry no_strings already_trimmed journal_example form_new_day))
  = 1010%float.
Proof.
  rewrite (accountBalance_after_save float _ no_strings already_trimmed
             journal_example form_new_day).
  - reflexivity.
  - unfold unique_dates. cbn. repeat constructor; rewrite ?elem_of_cons;
      try (intros [E|E]; [discriminate E|inversion E]); intros E; inversion E.
  - intros x Hx. repeat (apply elem_of_cons in Hx as [->|Hx]; [discriminate|]).
    inversion Hx.
Defined.
